(** * NSS face-detection attendance: ledger and recognition pipeline

    A shallow embedding of the attendance core of the Django application:

    - [models.py]: the [Student] and [Attendance] tables (with the
      [unique_together = ['student', 'event']] constraint),
    - [face_recognition/face_utils.py]: [SimpleFaceRecognizer]
      ([load_and_train], [recognize_face]),
    - [views.py]: the POST branches of [group_attendance] and of
      [manual_attendance] (the second definition of that name, which is the
      one Python binds).

    OpenCV is an external library: its operations are the fields of the
    interface [CV].  Database rows are kept in lists, in insertion order, so
    that "at most one row per pair" is a property to prove and not a property
    of the container. *)

From Stdlib Require Import ZArith QArith Lia DecimalString.
From stdpp Require Import base option list gmap strings.

Open Scope Z_scope.

(** ** Exceptions *)

Inductive exn : Type :=
| DoesNotExist              (* Model.DoesNotExist *)
| MultipleObjectsReturned   (* Model.MultipleObjectsReturned *)
| ValueError                (* a primary key that is not a number *)
| CvError.                  (* cv2.error *)

Inductive result (A : Type) : Type :=
| Ok (a : A)
| Raise (e : exn).
Arguments Ok {A} a.
Arguments Raise {A} e.

#[global] Instance exn_eq_dec : EqDecision exn.
Proof. solve_decision. Defined.

(** ** models.py *)

(** [Student]: the columns the attendance core reads.  [s_photo] is [None]
    for an empty [ImageField] (which is falsy) and the file path otherwise. *)
Record Student : Type := mkStudent {
  s_id : Z;                   (* primary key *)
  s_student_id : string;      (* CharField, unique *)
  s_name : string;
  s_photo : option string;
  s_is_active : bool
}.

Record Event : Type := mkEvent {
  e_id : Z;
  e_title : string
}.

(** [Attendance]: foreign keys are stored as primary keys.  The column
    [attendance_time] ([auto_now_add]) is written once and read by no code
    path of the core; it is left out. *)
Record Attendance : Type := mkAttendance {
  a_student : Z;
  a_event : Z;
  a_marked_by : Z;
  a_is_manual : bool;
  a_notes : option string     (* TextField(blank=True, null=True) *)
}.

#[global] Instance Student_eq_dec : EqDecision Student.
Proof. solve_decision. Defined.
#[global] Instance Attendance_eq_dec : EqDecision Attendance.
Proof. solve_decision. Defined.

(** [Model.objects.get]: the single row that satisfies the lookup;
    [DoesNotExist] when there is none, [MultipleObjectsReturned] when there
    are several. *)
Definition objects_get {A : Type} (P : A → Prop) `{∀ x, Decision (P x)}
    (rows : list A) : result A :=
  match filter P rows with
  | [] => Raise DoesNotExist
  | [x] => Ok x
  | _ :: _ :: _ => Raise MultipleObjectsReturned
  end.

(** The lookup [student=..., event=...] of an attendance row. *)
Definition for_pair (student event : Z) (a : Attendance) : Prop :=
  a_student a = student ∧ a_event a = event.

#[global] Instance for_pair_dec student event a : Decision (for_pair student event a).
Proof. unfold for_pair. apply _. Defined.

(** The [defaults] dictionary of [get_or_create]; a key that is absent takes
    the field's default ([is_manual = False], [notes = None]). *)
Record Defaults : Type := mkDefaults {
  d_marked_by : Z;
  d_is_manual : bool;
  d_notes : option string
}.

(** [Attendance.objects.get_or_create(student=, event=, defaults=)]: the
    table after the call, the row and the [created] flag. *)
Definition get_or_create (student event : Z) (defaults : Defaults)
    (table : list Attendance) : result (list Attendance * Attendance * bool) :=
  match objects_get (for_pair student event) table with
  | Ok a => Ok (table, a, false)
  | Raise DoesNotExist =>
      let a := mkAttendance student event (d_marked_by defaults)
                 (d_is_manual defaults) (d_notes defaults) in
      Ok (table ++ [a], a, true)
  | Raise e => Raise e
  end.

(** ** views.py: the two loops that write attendance *)

(** The [defaults] of the automatic path: [marked_by] and [is_manual]. *)
Definition auto_defaults (coordinator : Student) : Defaults :=
  mkDefaults (s_id coordinator) false None.

(** [group_attendance], "Mark attendance for recognized students": the loop
    over [recognized_students].  It runs inside the view's [try], so an
    exception leaves the rows written so far (the connection autocommits) and
    ends the loop. *)
Fixpoint mark_recognized (coordinator : Student) (event : Event)
    (recognized_students : list Student) (attendance_count : nat)
    (table : list Attendance) : list Attendance * result nat :=
  match recognized_students with
  | [] => (table, Ok attendance_count)
  | student :: rest =>
      match get_or_create (s_id student) (e_id event)
              (auto_defaults coordinator) table with
      | Ok (table', _, created) =>
          mark_recognized coordinator event rest
            (if created then S attendance_count else attendance_count) table'
      | Raise e => (table, Raise e)
      end
  end.

(** The lookup [id=student_id, is_active=True] of the manual path. *)
Definition active_with_pk (pk : Z) (s : Student) : Prop :=
  s_id s = pk ∧ s_is_active s = true.

#[global] Instance active_with_pk_dec pk s : Decision (active_with_pk pk s).
Proof. unfold active_with_pk. apply _. Defined.

(** [f'Manually marked by admin. {admin_notes}'] *)
Definition manual_notes (admin_notes : string) : string :=
  "Manually marked by admin. " +:+ admin_notes.

(** The [defaults] of the manual path: [marked_by], [is_manual], [notes]. *)
Definition manual_defaults (admin : Student) (admin_notes : string) : Defaults :=
  mkDefaults (s_id admin) true (Some (manual_notes admin_notes)).

Section Manual.
(** The conversion of a submitted form value to a primary key; [None] is
    the [ValueError] Django raises for a value that is not a number. *)
Variable to_pk : string → option Z.

(** [manual_attendance], the loop over [student_ids].  Only
    [Student.DoesNotExist] is caught (and skipped); any other exception
    leaves the view. *)
Fixpoint mark_manual (students : list Student) (admin : Student) (event : Event)
    (admin_notes : string) (student_ids : list string) (attendance_count : nat)
    (table : list Attendance) : list Attendance * result nat :=
  match student_ids with
  | [] => (table, Ok attendance_count)
  | student_id :: rest =>
      match to_pk student_id with
      | None => (table, Raise ValueError)
      | Some pk =>
          match objects_get (active_with_pk pk) students with
          | Ok student =>
              match get_or_create (s_id student) (e_id event)
                      (manual_defaults admin admin_notes) table with
              | Ok (table', _, created) =>
                  mark_manual students admin event admin_notes rest
                    (if created then S attendance_count else attendance_count) table'
              | Raise e => (table, Raise e)
              end
          | Raise DoesNotExist =>
              mark_manual students admin event admin_notes rest attendance_count table
          | Raise e => (table, Raise e)
          end
      end
  end.
End Manual.

(** ** OpenCV as an interface *)

(** A face rectangle [(x, y, w, h)]. *)
Definition Rect : Type := (Z * Z * Z * Z)%type.

(** The operations of [cv2] and of the file system the code calls.  An
    [Image] is a decoded image together with its grayscale conversion;
    [face_roi] is the crop [gray[y:y+h, x:x+w]] resized to 100 x 100.
    [train] and [predict] are the methods of the LBPH recognizer; either may
    raise, and a call that raises leaves the recognizer as it was.  A
    confidence is a distance, compared but never computed with, so a rational
    stands for the float. *)
Class CV : Type := {
  Image : Type;
  Patch : Type;
  LBPH : Type;
  path_exists : string → bool;
  imread : string → option Image;
  detectMultiScale : Image → list Rect;
  face_roi : Image → Rect → Patch;
  LBPHFaceRecognizer_create : LBPH;
  train : LBPH → list Patch → list Z → result LBPH;
  predict : LBPH → Patch → result (Z * Q)
}.

(** [confidence < T] on floats. *)
Definition Qltb (x y : Q) : bool := negb (Qle_bool y x).

(** Python truthiness of a string. *)
Definition truthy (s : string) : bool :=
  match s with
  | EmptyString => false
  | String _ _ => true
  end.

(** The cut-off both recognition loops hard-code: [confidence < 70]. *)
Definition THRESHOLD : Q := 70.

Section Recognition.
Context `{cv : CV}.

(** ** face_utils.py: SimpleFaceRecognizer *)

(** The object's state: the LBPH recognizer and the attribute [label_ids],
    which exists only after a successful training ([hasattr]).  The ghost
    field [predicted] logs the patches handed to [recognizer.predict], in
    call order; no code reads it. *)
Record SimpleFaceRecognizer : Type := mkRecognizer {
  recognizer : LBPH;
  label_ids : option (gmap Z string);
  predicted : list Patch
}.

(** [SimpleFaceRecognizer()] *)
Definition init : SimpleFaceRecognizer :=
  mkRecognizer LBPHFaceRecognizer_create None [].

(** The accumulators of [load_and_train]. *)
Record training : Type := mkTraining {
  faces : list Patch;
  labels : list Z;
  t_label_ids : gmap Z string;
  current_id : Z
}.

Definition training0 : training := mkTraining [] [] ∅ 0.

(** The body of [for (x, y, w, h) in face_rects]. *)
Definition add_face (student : Student) (image : Image) (acc : training)
    (rect : Rect) : training :=
  mkTraining (faces acc ++ [face_roi image rect])
             (labels acc ++ [current_id acc])
             (<[current_id acc := s_student_id student]> (t_label_ids acc))
             (current_id acc + 1).

(** The body of [for student in students]. *)
Definition add_student (acc : training) (student : Student) : training :=
  match s_photo student with
  | Some image_path =>
      if path_exists image_path then
        match imread image_path with
        | Some image => foldl (add_face student image) acc (detectMultiScale image)
        | None => acc
        end
      else acc
  | None => acc
  end.

(** The training set accumulated over [Student.objects.filter(is_active=True)]. *)
Definition training_set (students : list Student) : training :=
  foldl add_student training0 (filter (λ s, s_is_active s = true) students).

(** [load_and_train]: [True] after a successful training, [False] when no
    face was found and also when an exception was caught. *)
Definition load_and_train (students : list Student) (self : SimpleFaceRecognizer)
    : SimpleFaceRecognizer * bool :=
  let acc := training_set students in
  match faces acc, labels acc with
  | _ :: _, _ :: _ =>
      match train (recognizer self) (faces acc) (labels acc) with
      | Ok model => (mkRecognizer model (Some (t_label_ids acc)) (predicted self), true)
      | Raise _ => (self, false)
      end
  | _, _ => (self, false)
  end.

(** [self.recognizer.predict(face_roi)], logged. *)
Definition call_predict (self : SimpleFaceRecognizer) (face : Patch)
    : result (Z * Q) * SimpleFaceRecognizer :=
  (predict (recognizer self) face,
   mkRecognizer (recognizer self) (label_ids self) (predicted self ++ [face])).

(** The loop of [recognize_face]: it returns at the first face whose
    confidence is below 70, with whatever [label_ids.get(label)] gives. *)
Fixpoint recognize_loop (image : Image) (rects : list Rect)
    (self : SimpleFaceRecognizer) : option string * SimpleFaceRecognizer :=
  match rects with
  | [] => (None, self)
  | rect :: rest =>
      match call_predict self (face_roi image rect) with
      | (Ok (label, confidence), self') =>
          if Qltb confidence THRESHOLD then
            match label_ids self' with
            | Some ids => (ids !! label, self')
            | None => (None, self')          (* AttributeError, caught *)
            end
          else recognize_loop image rest self'
      | (Raise _, self') => (None, self')    (* caught: "Recognition error" *)
      end
  end.

(** [recognize_face(image_path)]: a student id or [None]. *)
Definition recognize_face (students : list Student) (image_path : string)
    (self : SimpleFaceRecognizer) : option string * SimpleFaceRecognizer :=
  let '(self, trained) :=
    match label_ids self with
    | Some _ => (self, true)
    | None => load_and_train students self
    end in
  if trained then
    match imread image_path with
    | None => (None, self)
    | Some image =>
        match detectMultiScale image with
        | [] => (None, self)
        | rects => recognize_loop image rects self
        end
    end
  else (None, self).

(** ** views.py: group_attendance *)

(** The lookup [student_id=..., is_active=True]. *)
Definition active_with_student_id (student_id : string) (s : Student) : Prop :=
  s_student_id s = student_id ∧ s_is_active s = true.

#[global] Instance active_with_student_id_dec sid s :
  Decision (active_with_student_id sid s).
Proof. unfold active_with_student_id. apply _. Defined.

(** What the loop "Recognize each face" does with one prediction
    [(label, confidence)]: [Ok (Some student)] when the student is appended
    to [recognized_students], [Ok None] when the face is passed over. *)
Definition accept (T : Q) (students : list Student)
    (ids : option (gmap Z string)) (prediction : Z * Q) : result (option Student) :=
  let '(label, confidence) := prediction in
  if Qltb confidence T then
    match ids with
    | Some ids =>
        match ids !! label with
        | Some student_id =>
            if truthy student_id then
              match objects_get (active_with_student_id student_id) students with
              | Ok student => Ok (Some student)
              | Raise DoesNotExist => Ok None
              | Raise e => Raise e
              end
            else Ok None
        | None => Ok None
        end
    | None => Ok None                        (* no attribute [label_ids] *)
    end
  else Ok None.

(** The loop "Recognize each face"; [hasattr(recognizer, 'recognizer')] is
    always true, the attribute is set by [__init__]. *)
Fixpoint recognize_each (T : Q) (students : list Student) (image : Image)
    (rects : list Rect) (recognized_students : list Student)
    (rec : SimpleFaceRecognizer) : result (list Student) * SimpleFaceRecognizer :=
  match rects with
  | [] => (Ok recognized_students, rec)
  | rect :: rest =>
      match call_predict rec (face_roi image rect) with
      | (Ok prediction, rec') =>
          match accept T students (label_ids rec') prediction with
          | Ok (Some student) =>
              recognize_each T students image rest (recognized_students ++ [student]) rec'
          | Ok None => recognize_each T students image rest recognized_students rec'
          | Raise e => (Raise e, rec')
          end
      | (Raise e, rec') => (Raise e, rec')
      end
  end.

(** How a group-photo submission ends: the three error messages and the
    success message with its counts. *)
Inductive group_outcome : Type :=
| InvalidImageFile                         (* 'Invalid image file!' *)
| NoFacesDetected                          (* 'No faces detected in the group photo!' *)
| ErrorInGroupAttendance (e : exn)         (* 'Error in group attendance: ...' *)
| GroupCompleted (faces_detected students_recognized attendance_count : nat).

(** The recognition half of the view, for a photo with at least one face: a
    fresh recognizer is trained (the result of [load_and_train] is
    ignored) and every face is classified. *)
Definition group_recognize (T : Q) (students : list Student) (image : Image)
    (rects : list Rect) : result (list Student) * SimpleFaceRecognizer :=
  let rec := fst (load_and_train students init) in
  recognize_each T students image rects [] rec.

(** The POST branch of [group_attendance], once [event] and [coordinator]
    have been fetched.  [group_photo] is what [cv2.imread] returns for the
    saved upload. *)
Definition group_attendance_at (T : Q) (students : list Student)
    (coordinator : Student) (event : Event) (group_photo : option Image)
    (table : list Attendance) : list Attendance * group_outcome :=
  match group_photo with
  | None => (table, InvalidImageFile)
  | Some image =>
      match detectMultiScale image with
      | [] => (table, NoFacesDetected)
      | rects =>
          match fst (group_recognize T students image rects) with
          | Ok recognized_students =>
              match mark_recognized coordinator event recognized_students 0 table with
              | (table', Ok attendance_count) =>
                  (table', GroupCompleted (length rects) (length recognized_students)
                                          attendance_count)
              | (table', Raise e) => (table', ErrorInGroupAttendance e)
              end
          | Raise e => (table, ErrorInGroupAttendance e)
          end
      end
  end.

Definition group_attendance := group_attendance_at THRESHOLD.

(** Which kind of message ends the request: [messages.error] or
    [messages.success]. *)
Inductive level : Type := error | success.

Definition message_level (o : group_outcome) : level :=
  match o with
  | InvalidImageFile | NoFacesDetected | ErrorInGroupAttendance _ => error
  | GroupCompleted _ _ _ => success
  end.

(** The list [recognized_students] the marking loop of the view runs
    over; empty when the view returns before that loop. *)
Definition recognized_of (T : Q) (students : list Student)
    (group_photo : option Image) : list Student :=
  match group_photo with
  | Some image =>
      match detectMultiScale image with
      | [] => []
      | rects =>
          match fst (group_recognize T students image rects) with
          | Ok recognized_students => recognized_students
          | Raise _ => []
          end
      end
  | None => []
  end.

(** [rects] are classified by [model] with the predictions [results]. *)
Definition classified (model : LBPH) (image : Image) (rects : list Rect)
    (results : list (Z * Q)) : Prop :=
  Forall2 (λ rect r, predict model (face_roi image rect) = Ok r) rects results.

(** [rec] after [patches] more went through the classifier. *)
Definition logged (rec : SimpleFaceRecognizer) (patches : list Patch)
    : SimpleFaceRecognizer :=
  mkRecognizer (recognizer rec) (label_ids rec) (predicted rec ++ patches).
End Recognition.

(** ** views.py: manual_attendance *)

Inductive manual_outcome : Type :=
| SelectEventAndStudent                      (* 'Please select event and at least one student!' *)
| ManualRaised (e : exn)                     (* an exception leaves the view *)
| ManualCompleted (attendance_count : nat).

(** The POST branch of [manual_attendance], once [event] and [admin] have
    been fetched. *)
Definition manual_attendance (to_pk : string → option Z) (students : list Student)
    (admin : Student) (event : Event) (student_ids : list string)
    (admin_notes : string) (table : list Attendance) : list Attendance * manual_outcome :=
  match student_ids with
  | [] => (table, SelectEventAndStudent)
  | _ =>
      match mark_manual to_pk students admin event admin_notes student_ids 0 table with
      | (table', Ok attendance_count) => (table', ManualCompleted attendance_count)
      | (table', Raise e) => (table', ManualRaised e)
      end
  end.

(** ** Sequences of submissions *)

(** One request to either write path, with the [Student] table as it is when
    the request is served. *)
Inductive submission `{cv : CV} : Type :=
| GroupPhoto (students : list Student) (coordinator : Student) (event : Event)
    (group_photo : option Image)
| ManualMarking (students : list Student) (admin : Student) (event : Event)
    (student_ids : list string) (admin_notes : string).

Definition submit `{cv : CV} (to_pk : string → option Z) (sub : submission)
    (table : list Attendance) : list Attendance :=
  match sub with
  | GroupPhoto students coordinator event group_photo =>
      fst (group_attendance students coordinator event group_photo table)
  | ManualMarking students admin event student_ids admin_notes =>
      fst (manual_attendance to_pk students admin event student_ids admin_notes table)
  end.

Definition submit_all `{cv : CV} (to_pk : string → option Z)
    (subs : list submission) (table : list Attendance) : list Attendance :=
  foldl (λ table sub, submit to_pk sub table) table subs.

(** ** Properties of the tables *)

(** At most one attendance row per (student, event) pair. *)
Definition unique_pairs (table : list Attendance) : Prop :=
  ∀ student event, (length (filter (for_pair student event) table) ≤ 1)%nat.

(** [Student.student_id] is declared [unique=True]. *)
Definition unique_student_ids (students : list Student) : Prop :=
  NoDup (s_student_id <$> students).

(** The row [get_or_create] inserts. *)
Definition new_row (student event : Z) (defaults : Defaults) : Attendance :=
  mkAttendance student event (d_marked_by defaults) (d_is_manual defaults)
    (d_notes defaults).

(** [new] holds rows for pairs that have no row in [table], one per pair. *)
Definition fresh_rows (table new : list Attendance) : Prop :=
  ∀ student event,
    (length (filter (for_pair student event) new) ≤ 1)%nat ∧
    (filter (for_pair student event) table ≠ [] →
     filter (for_pair student event) new = []).

(** The matching policy as a function of a list of predictions: the loop
    "Recognize each face" with the calls to the classifier taken out. *)
Fixpoint matching_policy (T : Q) (students : list Student)
    (ids : option (gmap Z string)) (results : list (Z * Q)) : result (list Student) :=
  match results with
  | [] => Ok []
  | prediction :: rest =>
      match accept T students ids prediction with
      | Ok o =>
          match matching_policy T students ids rest with
          | Ok accepted => Ok (option_list o ++ accepted)
          | Raise e => Raise e
          end
      | Raise e => Raise e
      end
  end.

(** The identities of a list of accepted students, as a set. *)
Definition identities (accepted : list Student) : gset Z :=
  list_to_set (s_id <$> accepted).

(** A label resolves to a student: the label map gives a student id, and an
    active row of the table carries that id. *)
Definition resolves (students : list Student) (ids : option (gmap Z string))
    (label : Z) (s : Student) : Prop :=
  ∃ m, ids = Some m ∧ m !! label = Some (s_student_id s) ∧
       s ∈ students ∧ s_is_active s = true.

(** Every entry of a label map is the student id of an active student. *)
Definition enrolled_ids (students : list Student) (m : gmap Z string) : Prop :=
  map_Forall (λ _ student_id,
    ∃ s, s ∈ students ∧ s_is_active s = true ∧ s_student_id s = student_id) m.

(** Student ids are never empty (both forms require the field). *)
Definition nonempty_student_ids (students : list Student) : Prop :=
  Forall (λ s, s_student_id s ≠ EmptyString) students.

(** An attendance row refers to an active student of the table. *)
Definition references_active (students : list Student) (a : Attendance) : Prop :=
  ∃ s, s ∈ students ∧ s_id s = a_student a ∧ s_is_active s = true.

(** ** A small concrete world

    An image is the list of its faces; a face is the prediction a trained
    model gives for it, and an untrained model raises.  Four files are
    enrollment photos, the others are group photos. *)
Definition toy_files (path : string) : option (list (Z * Q)) :=
  if decide (path = "alice.jpg") then Some [(0, 10%Q)]
  else if decide (path = "bob.jpg") then Some [(1, 12%Q)]
  else if decide (path = "dave.jpg") then Some [(2, 9%Q)]
  else if decide (path = "group.jpg") then Some [(0, 25%Q); (1, 30%Q); (7, 95%Q)]
  else if decide (path = "twice.jpg") then Some [(0, 20%Q); (0, 22%Q)]
  else if decide (path = "stranger.jpg") then Some [(0, 95%Q)]
  else if decide (path = "empty.jpg") then Some []
  else None.

Definition toy_cv : CV := {|
  Image := list (Z * Q);
  Patch := Z * Q;
  LBPH := bool;
  path_exists := λ path, bool_decide (is_Some (toy_files path));
  imread := toy_files;
  detectMultiScale := λ image, (λ i, (Z.of_nat i, 0, 30, 30)) <$> seq 0 (length image);
  face_roi := λ image rect, default (-1, 1000%Q) (image !! Z.to_nat rect.1.1.1);
  LBPHFaceRecognizer_create := false;
  train := λ _ _ _, Ok true;
  predict := λ model face, if model then Ok face else Raise CvError
|}.

Definition alice : Student := mkStudent 1 "STU0001" "Alice" (Some "alice.jpg") true.
Definition bob : Student := mkStudent 2 "STU0002" "Bob" (Some "bob.jpg") true.
Definition carol : Student := mkStudent 3 "STU0003" "Carol" None true.
Definition dave : Student := mkStudent 4 "STU0004" "Dave" (Some "dave.jpg") false.
Definition toy_students : list Student := [alice; bob; carol; dave].
Definition toy_event : Event := mkEvent 1 "Plantation drive".

(** Form values are decimal numerals. *)
Definition toy_to_pk (s : string) : option Z :=
  Z.of_uint <$> NilEmpty.uint_of_string s.

Definition toy_submissions : list (submission (cv := toy_cv)) :=
  [ GroupPhoto toy_students bob toy_event (@imread toy_cv "group.jpg");
    ManualMarking toy_students alice toy_event ["3"; "1"; "4"; "9"] "Arrived late";
    GroupPhoto toy_students bob toy_event (@imread toy_cv "twice.jpg") ].

(** ** The rest of face_utils.py *)

Section Recognizer_api.
Context `{cv : CV}.

(** [verify_face(student_id, image_path)]: [recognized_id == student_id];
    [None] equals no student id. *)
Definition verify_face (students : list Student) (student_id image_path : string)
    (self : SimpleFaceRecognizer) : bool * SimpleFaceRecognizer :=
  let '(recognized_id, self') := recognize_face students image_path self in
  (bool_decide (recognized_id = Some student_id), self').

(** [detect_face(image_path)]: [len(faces) > 0], [False] for a file that
    cannot be read.  The recognizer is neither read nor changed. *)
Definition detect_face (image_path : string) : bool :=
  match imread image_path with
  | None => false
  | Some image =>
      match detectMultiScale image with
      | [] => false
      | _ :: _ => true
      end
  end.

(** The recognizer [recognize_face] works with: [self] when it has a label
    map, else what [load_and_train] leaves. *)
Definition ensure_trained (students : list Student) (self : SimpleFaceRecognizer)
    : SimpleFaceRecognizer :=
  match label_ids self with
  | Some _ => self
  | None => fst (load_and_train students self)
  end.
End Recognizer_api.

(** A submitted id the manual loop has nothing left to do for: it converts
    to a primary key, and either no active student carries it or that
    student has a row for the event. *)
Definition settled (to_pk : string → option Z) (students : list Student) (event : Event)
    (table : list Attendance) (student_id : string) : Prop :=
  ∃ pk, to_pk student_id = Some pk ∧
    (objects_get (active_with_pk pk) students = Raise DoesNotExist ∨
     ∃ s, objects_get (active_with_pk pk) students = Ok s ∧
          filter (for_pair (s_id s) (e_id event)) table ≠ []).

(** ** The rest of models.py and views.py *)

(** The columns of [Student] the attendance core does not read. *)
Record Profile : Type := mkProfile {
  p_student : Student;
  p_role : string;                 (* 'admin', 'coordinator' or 'student' *)
  p_approval_status : string       (* 'pending', 'approved' or 'rejected' *)
}.

(** A [User] with its [Student] ([OneToOneField]); [u_student] is [None] for
    a user without one, for which [hasattr(user, 'student')] is false. *)
Record User : Type := mkUser {
  u_id : Z;
  u_username : string;
  u_is_active : bool;
  u_is_superuser : bool;
  u_student : option Profile
}.

(** An [Event] row with its coordinator (a [Student] key) and its status. *)
Record EventRow : Type := mkEventRow {
  er_event : Event;
  er_coordinator : Z;
  er_status : string
}.

(** A [Notification] row; rows are kept in creation order. *)
Record Notification : Type := mkNotification {
  n_user : Z;
  n_title : string;
  n_body : string;
  n_url : string;
  n_approve_url : string;
  n_reject_url : string;
  n_is_read : bool
}.

#[global] Instance Profile_eq_dec : EqDecision Profile.
Proof. solve_decision. Defined.
#[global] Instance User_eq_dec : EqDecision User.
Proof. solve_decision. Defined.
#[global] Instance Notification_eq_dec : EqDecision Notification.
Proof. solve_decision. Defined.

(** The [Student] table as the attendance core reads it. *)
Definition students_of (users : list User) : list Student :=
  omap (λ u, p_student <$> u_student u) users.

(** *** The access tests *)

(** [is_admin] as first defined; the decorators of [student_list],
    [approve_student] and [reject_student] hold this function. *)
Definition is_admin_first (user : User) : bool :=
  match u_student user with
  | Some p => bool_decide (p_role p = "admin")
  | None => false
  end.

(** [is_admin] as defined again further down; the decorators of the views
    after it ([add_student] ... [manual_attendance]) hold this one. *)
Definition is_admin (user : User) : bool :=
  u_is_superuser user ||
  match u_student user with
  | Some p => bool_decide (p_role p = "admin")
  | None => false
  end.

Definition is_coordinator (user : User) : bool :=
  match u_student user with
  | Some p => bool_decide (p_role p ∈ ["admin"; "coordinator"])
  | None => false
  end.

Definition is_student (user : User) : bool :=
  match u_student user with
  | Some _ => true
  | None => false
  end.

(** The views behind [user_passes_test], and the test each decorator holds. *)
Inductive guarded_view : Type :=
| StudentList | ApproveStudent | RejectStudent
| AddStudent | EditStudent | DeleteStudent
| EventList | AddEvent | EditEvent | DeleteEvent
| ApproveEvent | RejectEvent
| GroupAttendance | ManualAttendance.

Definition access_test (v : guarded_view) : User → bool :=
  match v with
  | StudentList | ApproveStudent | RejectStudent => is_admin_first
  | AddStudent | EditStudent | DeleteStudent
  | ApproveEvent | RejectEvent | ManualAttendance => is_admin
  | EventList | AddEvent | EditEvent | DeleteEvent | GroupAttendance => is_coordinator
  end.

(** *** attendance_records *)

(** The rows the viewer is shown, by role.  The view orders them by
    [attendance_time]; here they stay in table order. *)
Definition visible_records (viewer : Profile) (events : list EventRow)
    (table : list Attendance) : list Attendance :=
  if bool_decide (p_role viewer = "admin") then table
  else if bool_decide (p_role viewer = "coordinator") then
    let my_events :=
      filter (λ e, er_coordinator e = s_id (p_student viewer)) events in
    filter (λ a, a_event a ∈ (λ e, e_id (er_event e)) <$> my_events) table
  else filter (λ a, a_student a = s_id (p_student viewer)) table.

(** [records.filter(is_manual=False).count()] *)
Definition face_recognition_count (records : list Attendance) : nat :=
  length (filter (λ a, a_is_manual a = false) records).

(** [records.filter(is_manual=True).count()] *)
Definition manual_count (records : list Attendance) : nat :=
  length (filter (λ a, a_is_manual a = true) records).

(** *** Notifications *)

(** [notify]: one unread row for the user. *)
Definition notify (user : Z) (title body url approve_url reject_url : string)
    (table : list Notification) : list Notification :=
  table ++ [mkNotification user title body url approve_url reject_url false].

Definition unread_of (user : Z) (n : Notification) : Prop :=
  n_user n = user ∧ n_is_read n = false.

#[global] Instance unread_of_dec user n : Decision (unread_of user n).
Proof. unfold unread_of. apply _. Defined.

(** [notifications_feed]: the ten newest rows of the user, newest first, and
    the number of all unread rows of the user. *)
Definition notifications_feed (user : Z) (table : list Notification)
    : list Notification * nat :=
  (take 10 (reverse (filter (λ n, n_user n = user) table)),
   length (filter (unread_of user) table)).

(** What [update(is_read=True)] does to one row of the queryset
    [filter(user=..., is_read=False)], and to any other row. *)
Definition mark_read (user : Z) (n : Notification) : Notification :=
  if decide (unread_of user n)
  then mkNotification (n_user n) (n_title n) (n_body n) (n_url n)
         (n_approve_url n) (n_reject_url n) true
  else n.

(** [notifications_mark_read] *)
Definition notifications_mark_read (user : Z) (table : list Notification)
    : list Notification :=
  mark_read user <$> table.

(** *** Approval of accounts and login *)

Inductive http : Type :=
| Http404                 (* get_object_or_404 found nothing *)
| Raised (e : exn)        (* an exception leaves the view *)
| Served.                 (* the view ran to its response *)

(** The lookup [student_id=...] among the users' students. *)
Definition has_student_id (student_id : string) (u : User) : Prop :=
  ∃ p, u_student u = Some p ∧ s_student_id (p_student p) = student_id.

#[global] Instance has_student_id_dec student_id u : Decision (has_student_id student_id u).
Proof.
  unfold has_student_id. destruct (u_student u) as [p|].
  - destruct (decide (s_student_id (p_student p) = student_id)) as [Heq|Hne].
    + left. by exists p.
    + right. intros (p' & [= <-] & ?). done.
  - right. by intros (p' & [=] & _).
Defined.

(** [student.approval_status = status; student.user.is_active = active],
    saved with [update_fields]: no other column is written. *)
Definition set_approval (status : string) (active : bool) (target : User) (u : User)
    : User :=
  if decide (u_id u = u_id target) then
    mkUser (u_id u) (u_username u) active (u_is_superuser u)
      ((λ p, mkProfile (p_student p) (p_role p) status) <$> u_student u)
  else u.

(** The body shared by [approve_student] and [reject_student]. *)
Definition decide_student (status : string) (active : bool) (title body url : string)
    (student_id : string) (users : list User) (notifications : list Notification)
    : list User * list Notification * http :=
  match objects_get (has_student_id student_id) users with
  | Ok target =>
      (set_approval status active target <$> users,
       notify (u_id target) title body url "" "" notifications,
       Served)
  | Raise DoesNotExist => (users, notifications, Http404)
  | Raise e => (users, notifications, Raised e)
  end.

Definition approve_student : string → list User → list Notification →
    list User * list Notification * http :=
  decide_student "approved" true "Account approved"
    "Your account has been approved. You can now log in." "login".

Definition reject_student : string → list User → list Notification →
    list User * list Notification * http :=
  decide_student "rejected" false "Account rejected"
    "Your account request has been rejected. Contact admin for details." "".

Inductive login_outcome : Type :=
| PendingApproval         (* 'Your account is pending admin approval. Please wait.' *)
| Welcome (user : User)   (* logged in, redirect to the dashboard *)
| InvalidLogin            (* 'Invalid username or password' *)
| LoginRaised (e : exn).

(** The POST branch of [login_view].  [authenticate] is Django's. *)
Definition login_view (authenticate : list User → string → string → option User)
    (users : list User) (username password : string) : login_outcome :=
  let attempt :=
    match authenticate users username password with
    | Some user => Welcome user
    | None => InvalidLogin
    end in
  match objects_get (λ u, u_username u = username) users with
  | Ok pending_user => if u_is_active pending_user then attempt else PendingApproval
  | Raise DoesNotExist => attempt
  | Raise e => LoginRaised e
  end.

(** *** register *)

(** The cleaned data of a bound [UserRegisterForm], reduced to what ends up
    in the [User] and [Student] rows; [r_photo] is the path the uploaded
    file is stored under. *)
Record registration : Type := mkRegistration {
  r_username : string;
  r_student_id : string;
  r_name : string;
  r_role : string;
  r_photo : string
}.

(** [clean_student_id] and the declaration of the field
    ([max_length=20, required=True]): the id is not empty, at most 20
    characters long and carried by no student. *)
Definition student_id_is_valid (student_id : string) (users : list User) : bool :=
  negb (bool_decide (student_id = EmptyString)) &&
  bool_decide (String.length student_id ≤ 20)%nat &&
  bool_decide (filter (has_student_id student_id) users = []).

(** The rows [register] leaves for a valid form: the user cannot log in
    ([is_active = False]), the student is 'pending' and, by the default of
    the column, [is_active = True]. *)
Definition registered_user (user_id student_pk : Z) (form : registration) : User :=
  mkUser user_id (r_username form) false false
    (Some (mkProfile
             (mkStudent student_pk (r_student_id form) (r_name form)
                (Some (r_photo form)) true)
             (r_role form) "pending")).

(** The users whose student has the role 'admin'. *)
Definition admin_users (users : list User) : list User :=
  filter (λ u, p_role <$> u_student u = Some "admin") users.

(** "Notify admins about new registration": one [notify] per admin. *)
Definition notify_admins (form : registration) (admins : list User)
    (notifications : list Notification) : list Notification :=
  foldl (λ table a,
           notify (u_id a) "User approval required"
             (r_name form +:+ " (" +:+ r_student_id form +:+ ") registered.")
             "students/"
             ("students/approve/" +:+ r_student_id form +:+ "/")
             ("students/reject/" +:+ r_student_id form +:+ "/") table)
        notifications admins.

Inductive register_outcome : Type :=
| AccountCreated          (* 'Account created! Wait until admin approves your account.' *)
| FormErrors.             (* the form is shown again *)

(** The POST branch of [register].  [other_fields_valid] is Django's verdict
    on the other fields of the form; [user_id] and [student_pk] are the keys
    the database gives to the new rows. *)
Definition register (other_fields_valid : bool) (user_id student_pk : Z)
    (form : registration) (users : list User) (notifications : list Notification)
    : list User * list Notification * register_outcome :=
  if other_fields_valid && student_id_is_valid (r_student_id form) users then
    let users' := users ++ [registered_user user_id student_pk form] in
    (users', notify_admins form (admin_users users') notifications, AccountCreated)
  else (users, notifications, FormErrors).

(** *** delete_student *)

(** The tables a deletion reaches. *)
Record Site : Type := mkSite {
  site_users : list User;
  site_events : list EventRow;
  site_attendance : list Attendance;
  site_notifications : list Notification
}.

(** The keys of the events a student coordinates. *)
Definition events_of (pk : Z) (events : list EventRow) : list Z :=
  (λ e, e_id (er_event e)) <$> filter (λ e, er_coordinator e = pk) events.

(** The POST branch of [delete_student]: [student.delete()] then
    [user.delete()].  Every foreign key of models.py is declared
    [on_delete=CASCADE]: with the student go the events they coordinate, the
    attendance rows of the student, those the student marked and those of the
    events that go; with the user go the user's notifications. *)
Definition delete_student (student_id : string) (site : Site) : Site * http :=
  match objects_get (has_student_id student_id) (site_users site) with
  | Ok user =>
      match u_student user with
      | Some p =>
          let pk := s_id (p_student p) in
          (mkSite
             (filter (λ u, u_id u ≠ u_id user) (site_users site))
             (filter (λ e, er_coordinator e ≠ pk) (site_events site))
             (filter (λ a, a_student a ≠ pk ∧ a_marked_by a ≠ pk ∧
                           a_event a ∉ events_of pk (site_events site))
                (site_attendance site))
             (filter (λ n, n_user n ≠ u_id user) (site_notifications site)),
           Served)
      | None => (site, Http404)
      end
  | Raise DoesNotExist => (site, Http404)
  | Raise e => (site, Raised e)
  end.

(** *** Users of the small concrete world *)

Definition toy_users : list User :=
  [ mkUser 11 "alice" true false (Some (mkProfile alice "admin" "approved"));
    mkUser 12 "bob" true false (Some (mkProfile bob "coordinator" "approved"));
    mkUser 13 "carol" true false (Some (mkProfile carol "student" "approved"));
    mkUser 14 "dave" false false (Some (mkProfile dave "student" "pending")) ].

(** *** Students that give no training face *)

(** The student is inactive, or has no photo, or the file is missing or
    unreadable, or no face is detected in it. *)
Definition without_training_face `{cv : CV} (s : Student) : Prop :=
  s_is_active s = false ∨
  match s_photo s with
  | None => True
  | Some image_path =>
      path_exists image_path = false ∨
      match imread image_path with
      | None => True
      | Some image => detectMultiScale image = []
      end
  end.

(** *** delete_event *)



(** * Lemmas *)

Section Ledger.
Implicit Types (table new : list Attendance) (student event : Z).

Lemma objects_get_cases {A} (P : A → Prop) `{HP : ∀ x, Decision (P x)} (rows : list A) :
  (filter P rows = [] ∧ objects_get P rows = Raise DoesNotExist) ∨
  (∃ x, filter P rows = [x] ∧ objects_get P rows = Ok x) ∨
  ((2 ≤ length (filter P rows))%nat ∧ objects_get P rows = Raise MultipleObjectsReturned).
Proof.
  unfold objects_get. destruct (filter P rows) as [|x [|y l]]; simpl.
  - by left.
  - right; left. by exists x.
  - right; right. split; [lia | done].
Qed.

Lemma objects_get_Ok {A} (P : A → Prop) `{HP : ∀ x, Decision (P x)} (rows : list A) x :
  objects_get P rows = Ok x → P x ∧ x ∈ rows.
Proof.
  intros Hget. destruct (objects_get_cases P rows) as [[_ E]|[(y & Hf & E)|[_ E]]];
    rewrite E in Hget; try discriminate.
  injection Hget as ->. apply (list_elem_of_filter P). rewrite Hf. by left.
Qed.

Lemma get_or_create_cases student event defaults table :
  (filter (for_pair student event) table = [] ∧
   get_or_create student event defaults table =
     Ok (table ++ [new_row student event defaults], new_row student event defaults, true)) ∨
  (∃ a, filter (for_pair student event) table = [a] ∧
        get_or_create student event defaults table = Ok (table, a, false)) ∨
  ((2 ≤ length (filter (for_pair student event) table))%nat ∧
   get_or_create student event defaults table = Raise MultipleObjectsReturned).
Proof.
  unfold get_or_create.
  destruct (objects_get_cases (for_pair student event) table)
    as [[Hf E]|[(a & Hf & E)|[Hf E]]]; rewrite E.
  - by left.
  - right; left. by exists a.
  - right; right. done.
Qed.

Lemma for_pair_new_row student event defaults st ev :
  for_pair st ev (new_row student event defaults) ↔ st = student ∧ ev = event.
Proof. unfold for_pair, new_row; simpl. split; intros [-> ->]; done. Qed.

Lemma fresh_rows_nil table : fresh_rows table [].
Proof. intros st ev. split; [simpl; lia | done]. Qed.

Lemma fresh_rows_cons student event defaults table new :
  filter (for_pair student event) table = [] →
  fresh_rows (table ++ [new_row student event defaults]) new →
  fresh_rows table (new_row student event defaults :: new).
Proof.
  intros Hnone Hfresh st ev. destruct (Hfresh st ev) as [Hle Hold].
  rewrite filter_app in Hold. rewrite filter_cons.
  destruct (decide (for_pair st ev (new_row student event defaults))) as [Hp|Hp].
  - rewrite filter_cons_True in Hold by done.
    rewrite Hold by (intros Heq; apply app_eq_nil in Heq as [_ ?]; done).
    split; [simpl; lia|].
    apply for_pair_new_row in Hp as [-> ->]. done.
  - split; [done|]. intros Hne. apply Hold.
    intros Heq. apply app_eq_nil in Heq as [? _]. done.
Qed.

Lemma fresh_rows_unique table new :
  unique_pairs table → fresh_rows table new → unique_pairs (table ++ new).
Proof.
  intros Huniq Hfresh st ev. specialize (Huniq st ev).
  destruct (Hfresh st ev) as [Hle Hold]. rewrite filter_app, length_app.
  destruct (filter (for_pair st ev) table) as [|a l] eqn:E.
  - simpl. lia.
  - rewrite Hold by done. simpl in *. lia.
Qed.

End Ledger.

(** The loops that write attendance: what they add to the table. *)
Section Loops.
Implicit Types (table new : list Attendance) (rs : list Student).

Lemma filter_app_ne {A} (P : A → Prop) `{HP : ∀ x, Decision (P x)} (l k : list A) :
  filter P l ≠ [] → filter P (l ++ k) ≠ [].
Proof.
  intros Hne Heq. rewrite filter_app in Heq. by apply app_eq_nil in Heq as [? _].
Qed.

Lemma mark_recognized_rows coordinator event rs n table :
  ∃ new,
    fst (mark_recognized coordinator event rs n table) = table ++ new ∧
    fresh_rows table new ∧
    Forall (λ a, ∃ s, s ∈ rs ∧
              a = new_row (s_id s) (e_id event) (auto_defaults coordinator)) new ∧
    ∀ m, snd (mark_recognized coordinator event rs n table) = Ok m →
         m = (n + length new)%nat ∧
         ∀ s, s ∈ rs → filter (for_pair (s_id s) (e_id event)) (table ++ new) ≠ [].
Proof.
  revert n table. induction rs as [|s rs IH]; intros n table.
  - exists []. simpl. rewrite app_nil_r.
    split; [done|]. split; [apply fresh_rows_nil|]. split; [constructor|].
    intros m [= <-]. split; [lia|]. intros s Hs. by apply elem_of_nil in Hs.
  - simpl.
    destruct (get_or_create_cases (s_id s) (e_id event) (auto_defaults coordinator) table)
      as [[Hf E]|[(a & Hf & E)|[Hf E]]]; rewrite E.
    + destruct (IH (S n) (table ++ [new_row (s_id s) (e_id event) (auto_defaults coordinator)]))
        as (new & Htab & Hfresh & Hrows & Hcount).
      exists (new_row (s_id s) (e_id event) (auto_defaults coordinator) :: new).
      rewrite Htab, <- app_assoc. split; [done|]. split; [by apply fresh_rows_cons|].
      split.
      * constructor; [exists s; split; [by left|done]|].
        eapply Forall_impl; [exact Hrows|]. intros a (s' & Hs' & ->).
        exists s'. split; [by right|done].
      * intros m Hm. destruct (Hcount m Hm) as [-> Hcov]. split; [simpl; lia|].
        rewrite <- app_assoc in Hcov. simpl in Hcov.
        intros s' Hs'. apply elem_of_cons in Hs' as [->|Hs']; [|by apply Hcov].
        rewrite filter_app, filter_cons_True by (by apply for_pair_new_row).
        intros Heq. by apply app_eq_nil in Heq as [_ ?].
    + destruct (IH n table) as (new & Htab & Hfresh & Hrows & Hcount).
      exists new. split; [done|]. split; [done|]. split.
      * eapply Forall_impl; [exact Hrows|]. intros a' (s' & Hs' & ->).
        exists s'. split; [by right|done].
      * intros m Hm. destruct (Hcount m Hm) as [-> Hcov]. split; [done|].
        intros s' Hs'. apply elem_of_cons in Hs' as [->|Hs']; [|by apply Hcov].
        apply filter_app_ne. by rewrite Hf.
    + exists []. simpl. rewrite app_nil_r.
      split; [done|]. split; [apply fresh_rows_nil|]. split; [constructor|].
      intros m [=].
Qed.

(** With at most one row per pair in the table, the loop raises nothing. *)
Lemma mark_recognized_total coordinator event rs n table :
  unique_pairs table →
  ∃ m, snd (mark_recognized coordinator event rs n table) = Ok m.
Proof.
  revert n table. induction rs as [|s rs IH]; intros n table Huniq; simpl.
  - by exists n.
  - destruct (get_or_create_cases (s_id s) (e_id event) (auto_defaults coordinator) table)
      as [[Hf E]|[(a & Hf & E)|[Hf E]]]; rewrite E.
    + apply IH. apply fresh_rows_unique; [done|].
      apply fresh_rows_cons; [done | apply fresh_rows_nil].
    + by apply IH.
    + specialize (Huniq (s_id s) (e_id event)). lia.
Qed.

(** When every student of the list has its row, the loop writes nothing
    and counts nothing. *)
Lemma mark_recognized_again coordinator event rs n table :
  unique_pairs table →
  (∀ s, s ∈ rs → filter (for_pair (s_id s) (e_id event)) table ≠ []) →
  mark_recognized coordinator event rs n table = (table, Ok n).
Proof.
  intros Huniq. revert n. induction rs as [|s rs IH]; intros n Hcov; simpl; [done|].
  destruct (get_or_create_cases (s_id s) (e_id event) (auto_defaults coordinator) table)
    as [[Hf E]|[(a & Hf & E)|[Hf E]]]; rewrite E.
  - exfalso. apply (Hcov s); [by left | done].
  - apply IH. intros s' Hs'. apply Hcov. by right.
  - specialize (Huniq (s_id s) (e_id event)). lia.
Qed.

Lemma mark_manual_rows to_pk students admin event admin_notes ids n table :
  ∃ new,
    fst (mark_manual to_pk students admin event admin_notes ids n table) = table ++ new ∧
    fresh_rows table new ∧
    Forall (λ a, ∃ s sid, s ∈ students ∧ s_is_active s = true ∧
              sid ∈ ids ∧ to_pk sid = Some (s_id s) ∧
              a = new_row (s_id s) (e_id event) (manual_defaults admin admin_notes)) new ∧
    ∀ m, snd (mark_manual to_pk students admin event admin_notes ids n table) = Ok m →
         m = (n + length new)%nat.
Proof.
  revert n table. induction ids as [|sid ids IH]; intros n table.
  - exists []. simpl. rewrite app_nil_r.
    split; [done|]. split; [apply fresh_rows_nil|]. split; [constructor|].
    intros m [= <-]. lia.
  - assert (Hstop : ∀ e, ∃ new,
      fst (table, Raise e : result nat) = table ++ new ∧ fresh_rows table new ∧
      Forall (λ a, ∃ s sid', s ∈ students ∧ s_is_active s = true ∧
                sid' ∈ sid :: ids ∧ to_pk sid' = Some (s_id s) ∧
                a = new_row (s_id s) (e_id event) (manual_defaults admin admin_notes)) new ∧
      ∀ m, snd (table, Raise e : result nat) = Ok m → m = (n + length new)%nat).
    { intros e. exists []. simpl. rewrite app_nil_r.
      split; [done|]. split; [apply fresh_rows_nil|]. split; [constructor|].
      intros m [=]. }
    assert (Hskip : ∀ new, Forall (λ a, ∃ s sid', s ∈ students ∧ s_is_active s = true ∧
                sid' ∈ ids ∧ to_pk sid' = Some (s_id s) ∧
                a = new_row (s_id s) (e_id event) (manual_defaults admin admin_notes)) new →
             Forall (λ a, ∃ s sid', s ∈ students ∧ s_is_active s = true ∧
                sid' ∈ sid :: ids ∧ to_pk sid' = Some (s_id s) ∧
                a = new_row (s_id s) (e_id event) (manual_defaults admin admin_notes)) new).
    { intros new Hrows. eapply Forall_impl; [exact Hrows|].
      intros a (s & sid' & ? & ? & ? & ? & ?). exists s, sid'.
      split; [done|]. split; [done|]. split; [by right|]. done. }
    simpl. destruct (to_pk sid) as [pk|] eqn:Hpk; [|apply Hstop].
    destruct (objects_get_cases (active_with_pk pk) students)
      as [[Hg E]|[(s & Hg & E)|[Hg E]]]; rewrite E; [| |apply Hstop].
    { destruct (IH n table) as (new & Htab & Hfresh & Hrows & Hcount).
      exists new. split; [done|]. split; [done|]. split; [by apply Hskip|done]. }
    pose proof (objects_get_Ok _ _ _ E) as [[Hid Hact] Hin].
    destruct (get_or_create_cases (s_id s) (e_id event)
                (manual_defaults admin admin_notes) table)
      as [[Hf E']|[(a & Hf & E')|[Hf E']]]; rewrite E';
      [| |apply Hstop].
    + destruct (IH (S n) (table ++ [new_row (s_id s) (e_id event)
                                      (manual_defaults admin admin_notes)]))
        as (new & Htab & Hfresh & Hrows & Hcount).
      exists (new_row (s_id s) (e_id event) (manual_defaults admin admin_notes) :: new).
      rewrite Htab, <- app_assoc. split; [done|]. split; [by apply fresh_rows_cons|].
      split.
      * constructor; [|by apply Hskip].
        exists s, sid. split; [done|]. split; [done|]. split; [by left|].
        split; [by rewrite Hid | done].
      * intros m Hm. rewrite (Hcount m Hm). simpl. lia.
    + destruct (IH n table) as (new & Htab & Hfresh & Hrows & Hcount).
      exists new. split; [done|]. split; [done|]. split; [by apply Hskip|done].
Qed.
End Loops.

Section Policy.
Implicit Types (students : list Student) (ids : option (gmap Z string)).

Lemma Qltb_lt x y : Qltb x y = true ↔ (x < y)%Q.
Proof.
  unfold Qltb. rewrite negb_true_iff. split.
  - intros Hb. apply Qnot_le_lt. intros Hle. apply Qle_bool_iff in Hle. congruence.
  - intros Hlt. destruct (Qle_bool y x) eqn:E; [|done].
    apply Qle_bool_iff in E. by apply Qlt_not_le in Hlt.
Qed.

Lemma Qltb_mono x T' T : (T' <= T)%Q → Qltb x T' = true → Qltb x T = true.
Proof. rewrite !Qltb_lt. intros Hle Hlt. by eapply Qlt_le_trans. Qed.

Lemma truthy_nonempty s : truthy s = true ↔ s ≠ EmptyString.
Proof. destruct s; simpl; split; try done. Qed.

(** A unique column selects at most one row. *)
Lemma filter_unique_column students sid :
  unique_student_ids students →
  (length (filter (active_with_student_id sid) students) ≤ 1)%nat.
Proof.
  unfold unique_student_ids. induction students as [|s l IH]; [simpl; lia|].
  rewrite fmap_cons, NoDup_cons. intros [Hnotin Hnd]. rewrite filter_cons.
  destruct (decide (active_with_student_id sid s)) as [[Hsid _]|_]; [|by apply IH].
  assert (filter (active_with_student_id sid) l = []) as ->; [|simpl; lia].
  destruct (filter (active_with_student_id sid) l) as [|s' l'] eqn:E; [done|].
  exfalso. assert (Hin : s' ∈ filter (active_with_student_id sid) l)
    by (rewrite E; by left).
  apply list_elem_of_filter in Hin as [[Hsid' _] Hin]. apply Hnotin.
  rewrite Hsid, <- Hsid'. by apply list_elem_of_fmap_2.
Qed.

Lemma objects_get_student_id students sid s :
  unique_student_ids students →
  s ∈ students → s_student_id s = sid → s_is_active s = true →
  objects_get (active_with_student_id sid) students = Ok s.
Proof.
  intros Huniq Hin Hsid Hact. pose proof (filter_unique_column students sid Huniq) as Hle.
  assert (Hs : s ∈ filter (active_with_student_id sid) students)
    by (by apply list_elem_of_filter).
  unfold objects_get.
  destruct (filter (active_with_student_id sid) students) as [|x [|y l]]; simpl in Hle.
  - by apply elem_of_nil in Hs.
  - apply list_elem_of_singleton in Hs. by subst.
  - lia.
Qed.

(** What an accepted prediction satisfies. *)
Lemma accept_Some T students ids label confidence s :
  accept T students ids (label, confidence) = Ok (Some s) →
  (confidence < T)%Q ∧ resolves students ids label s ∧
  s_student_id s ≠ EmptyString.
Proof.
  unfold accept. destruct (Qltb confidence T) eqn:Hc; [|done].
  destruct ids as [m|]; [|done]. destruct (m !! label) as [sid|] eqn:Hl; [|done].
  destruct (truthy sid) eqn:Ht; [|done].
  destruct (objects_get (active_with_student_id sid) students) as [x|[]] eqn:Hg;
    try done.
  intros [= ->]. apply objects_get_Ok in Hg as [[Hsid Hact] Hin]. subst sid.
  split; [by apply Qltb_lt|]. split; [|by apply truthy_nonempty].
  by exists m.
Qed.

(** With unique, non-empty student ids the converse holds. *)
Lemma accept_resolved T students ids label confidence s :
  unique_student_ids students → nonempty_student_ids students →
  (confidence < T)%Q → resolves students ids label s →
  accept T students ids (label, confidence) = Ok (Some s).
Proof.
  intros Huniq Hne Hc (m & -> & Hl & Hin & Hact). unfold accept.
  apply Qltb_lt in Hc. rewrite Hc, Hl.
  assert (truthy (s_student_id s) = true) as ->.
  { apply truthy_nonempty. unfold nonempty_student_ids in Hne.
    rewrite Forall_forall in Hne. by apply Hne. }
  by rewrite (objects_get_student_id students _ s).
Qed.

(** With unique student ids the policy raises nothing. *)
Lemma accept_total T students ids prediction :
  unique_student_ids students → ∃ o, accept T students ids prediction = Ok o.
Proof.
  intros Huniq. destruct prediction as [label confidence]. unfold accept.
  destruct (Qltb confidence T); [|by eexists]. destruct ids as [m|]; [|by eexists].
  destruct (m !! label) as [sid|]; [|by eexists].
  destruct (truthy sid); [|by eexists].
  pose proof (filter_unique_column students sid Huniq) as Hle.
  destruct (objects_get_cases (active_with_student_id sid) students)
    as [[_ E]|[(x & _ & E)|[Hlen _]]]; [rewrite E| rewrite E |lia]; by eexists.
Qed.

(** Lowering the threshold can only turn an acceptance into a rejection. *)
Lemma accept_threshold T' T students ids prediction o :
  (T' <= T)%Q → accept T students ids prediction = Ok o →
  accept T' students ids prediction = Ok None ∨
  accept T' students ids prediction = Ok o.
Proof.
  intros Hle. destruct prediction as [label confidence]. unfold accept.
  destruct (Qltb confidence T') eqn:Hc'; [|by left].
  rewrite (Qltb_mono _ _ _ Hle Hc'). by right.
Qed.

Lemma matching_policy_threshold T' T students ids results accepted :
  (T' <= T)%Q → matching_policy T students ids results = Ok accepted →
  ∃ accepted', matching_policy T' students ids results = Ok accepted' ∧
               accepted' `sublist_of` accepted.
Proof.
  intros Hle. revert accepted. induction results as [|r results IH]; simpl.
  - intros accepted [= <-]. by exists [].
  - intros accepted. destruct (accept T students ids r) as [o|] eqn:Ha; [|done].
    destruct (matching_policy T students ids results) as [l|] eqn:Hp; [|done].
    intros [= <-]. destruct (IH l eq_refl) as (l' & -> & Hsub).
    destruct (accept_threshold T' T students ids r o Hle Ha) as [-> | ->].
    + exists l'. split; [done|]. by apply sublist_inserts_l.
    + eexists. split; [done|]. by apply sublist_app.
Qed.

Lemma matching_policy_total T students ids results :
  unique_student_ids students →
  ∃ accepted, matching_policy T students ids results = Ok accepted.
Proof.
  intros Huniq. induction results as [|r results [l IH]]; simpl; [by eexists|].
  destruct (accept_total T students ids r Huniq) as [o ->]. rewrite IH. by eexists.
Qed.

(** The accepted students are those of the accepted predictions. *)
Lemma matching_policy_elem T students ids results accepted s :
  matching_policy T students ids results = Ok accepted →
  s ∈ accepted ↔ ∃ r, r ∈ results ∧ accept T students ids r = Ok (Some s).
Proof.
  revert accepted. induction results as [|r results IH]; simpl.
  - intros accepted [= <-]. split; [by intros ?%elem_of_nil|].
    by intros (r & ?%elem_of_nil & _).
  - intros accepted. destruct (accept T students ids r) as [o|] eqn:Ha; [|done].
    destruct (matching_policy T students ids results) as [l|] eqn:Hp; [|done].
    intros [= <-]. rewrite elem_of_app, (IH l eq_refl). split.
    + intros [Ho|(r' & Hr' & Hacc)].
      * exists r. split; [by left|]. destruct o; simpl in Ho.
        -- apply list_elem_of_singleton in Ho. by subst.
        -- by apply elem_of_nil in Ho.
      * exists r'. split; [by right|done].
    + intros (r' & Hr' & Hacc). apply elem_of_cons in Hr' as [->|Hr'].
      * left. rewrite Hacc in Ha. injection Ha as <-. simpl. by left.
      * right. by exists r'.
Qed.
End Policy.

(** The two recognition loops and the classifier's call log. *)
Section Loops_of_recognition.
Context `{cv : CV}.
Implicit Types (students : list Student) (image : Image) (rects : list Rect)
  (rec self : SimpleFaceRecognizer).

Lemma logged_nil rec : logged rec [] = rec.
Proof. destruct rec. unfold logged; simpl. by rewrite app_nil_r. Qed.

Lemma logged_logged rec l k : logged (logged rec l) k = logged rec (l ++ k).
Proof. unfold logged; simpl. by rewrite app_assoc. Qed.

(** When no call raises, the loop of the view is the matching policy on
    the predictions, and every face has been classified once, in order. *)
Lemma recognize_each_policy T students image rects results acc rec :
  classified (recognizer rec) image rects results →
  ∀ accepted, matching_policy T students (label_ids rec) results = Ok accepted →
  recognize_each T students image rects acc rec =
    (Ok (acc ++ accepted), logged rec (face_roi image <$> rects)).
Proof.
  intros Hcl. revert acc rec Hcl.
  induction rects as [|rect rects IH] in results |- *; intros acc rec Hcl accepted.
  - apply Forall2_nil_inv_l in Hcl as ->. simpl. intros [= <-].
    by rewrite app_nil_r, logged_nil.
  - apply Forall2_cons_inv_l in Hcl as (r & results' & Hr & Hcl & ->). simpl.
    rewrite Hr.
    destruct (accept T students (label_ids rec) r) as [o|] eqn:Ha; [|done].
    destruct (matching_policy T students (label_ids rec) results') as [l|] eqn:Hp;
      [|done].
    intros [= <-].
    change (mkRecognizer (recognizer rec) (label_ids rec)
              (predicted rec ++ [face_roi image rect]))
      with (logged rec [face_roi image rect]).
    destruct o as [s|]; simpl.
    + rewrite (IH results' (acc ++ [s]) (logged rec [face_roi image rect]) Hcl l Hp).
      by rewrite logged_logged, <- app_assoc.
    + rewrite (IH results' acc (logged rec [face_roi image rect]) Hcl l Hp).
      by rewrite logged_logged.
Qed.

(** Conversely, a loop that ends without exception has classified every
    face and returns what the policy accepts. *)
Lemma recognize_each_Ok T students image rects acc rec rs rec' :
  recognize_each T students image rects acc rec = (Ok rs, rec') →
  ∃ results accepted,
    classified (recognizer rec) image rects results ∧
    matching_policy T students (label_ids rec) results = Ok accepted ∧
    rs = acc ++ accepted ∧ rec' = logged rec (face_roi image <$> rects).
Proof.
  revert acc rec. induction rects as [|rect rects IH]; intros acc rec; simpl.
  - intros [= <- <-]. exists [], []. split; [constructor|].
    by rewrite app_nil_r, logged_nil.
  - destruct (predict (recognizer rec) (face_roi image rect)) as [r|] eqn:Hr; [|done].
    destruct (accept T students (label_ids rec) r) as [o|] eqn:Ha; [|done].
    change (mkRecognizer (recognizer rec) (label_ids rec)
              (predicted rec ++ [face_roi image rect]))
      with (logged rec [face_roi image rect]).
    destruct o as [s|] eqn:Ho; intros Hloop;
      apply IH in Hloop as (results & l & Hcl & Hp & -> & ->); simpl in Hcl, Hp;
      exists (r :: results), (option_list o ++ l); subst o;
      (split; [by constructor|]); simpl; rewrite Ha, Hp;
      (split; [done|]); rewrite logged_logged; simpl.
    + by rewrite <- app_assoc.
    + done.
Qed.

(** The loop never touches the table of rows nor the model. *)
Lemma recognize_each_log T students image rects acc rec :
  ∃ patches,
    snd (recognize_each T students image rects acc rec) = logged rec patches ∧
    patches `prefix_of` (face_roi image <$> rects).
Proof.
  revert acc rec. induction rects as [|rect rects IH]; intros acc rec; simpl.
  - exists []. by rewrite logged_nil.
  - change (mkRecognizer (recognizer rec) (label_ids rec)
              (predicted rec ++ [face_roi image rect]))
      with (logged rec [face_roi image rect]).
    assert (Hstop : ∃ patches, logged rec [face_roi image rect] = logged rec patches ∧
              patches `prefix_of` face_roi image rect :: (face_roi image <$> rects)).
    { exists [face_roi image rect]. split; [done|]. by apply (prefix_app [_] []), prefix_nil. }
    destruct (predict (recognizer rec) (face_roi image rect)) as [r|]; [|exact Hstop].
    destruct (accept T students (label_ids rec) r) as [[s|]|]; [| |exact Hstop].
    all: match goal with |- context [recognize_each _ _ _ _ ?a ?r] =>
           destruct (IH a r) as (patches & -> & Hpre) end.
    all: exists (face_roi image rect :: patches); rewrite logged_logged;
         split; [done | by apply (prefix_app [_])].
Qed.

(** [recognize_face]: the loop stops at the first face below the cut-off. *)
Lemma recognize_loop_stop image pre rect post self label confidence :
  Forall (λ r, ∃ l c, predict (recognizer self) (face_roi image r) = Ok (l, c) ∧
                      ¬ (c < THRESHOLD)%Q) pre →
  predict (recognizer self) (face_roi image rect) = Ok (label, confidence) →
  (confidence < THRESHOLD)%Q →
  recognize_loop image (pre ++ rect :: post) self =
    (label_ids self ≫= (.!! label),
     logged self (face_roi image <$> (pre ++ [rect]))).
Proof.
  intros Hpre Hr Hc. revert self Hpre Hr.
  induction pre as [|r pre IH]; intros self Hpre Hr; simpl.
  - rewrite Hr. apply Qltb_lt in Hc. rewrite Hc. unfold logged; simpl.
    by destruct (label_ids self).
  - apply Forall_cons in Hpre as [(l & c & Hp & Hnc) Hpre]. rewrite Hp.
    destruct (Qltb c THRESHOLD) eqn:E; [exfalso; apply Hnc; by apply Qltb_lt|].
    change (mkRecognizer (recognizer self) (label_ids self)
              (predicted self ++ [face_roi image r]))
      with (logged self [face_roi image r]).
    rewrite (IH (logged self [face_roi image r])); [|done|done].
    by rewrite logged_logged.
Qed.

(** ... and returns [None] when no face is below it. *)
Lemma recognize_loop_none image rects self :
  Forall (λ r, ∃ l c, predict (recognizer self) (face_roi image r) = Ok (l, c) ∧
                      ¬ (c < THRESHOLD)%Q) rects →
  recognize_loop image rects self = (None, logged self (face_roi image <$> rects)).
Proof.
  revert self. induction rects as [|r rects IH]; intros self Hall; simpl.
  - by rewrite logged_nil.
  - apply Forall_cons in Hall as [(l & c & Hp & Hnc) Hall]. rewrite Hp.
    destruct (Qltb c THRESHOLD) eqn:E; [exfalso; apply Hnc; by apply Qltb_lt|].
    change (mkRecognizer (recognizer self) (label_ids self)
              (predicted self ++ [face_roi image r]))
      with (logged self [face_roi image r]).
    rewrite (IH (logged self [face_roi image r])); [|done].
    by rewrite logged_logged.
Qed.

(** [load_and_train] without a training face: nothing changes. *)
Lemma load_and_train_untrainable students self :
  faces (training_set students) = [] →
  load_and_train students self = (self, false).
Proof. unfold load_and_train. by intros ->. Qed.

Lemma load_and_train_true students self self' :
  load_and_train students self = (self', true) →
  faces (training_set students) ≠ [] ∧
  label_ids self' = Some (t_label_ids (training_set students)) ∧
  predicted self' = predicted self.
Proof.
  unfold load_and_train. destruct (faces (training_set students)) as [|f fs]; [done|].
  destruct (labels (training_set students)) as [|l ls]; [done|].
  destruct (train _ _ _); [|done]. by intros [= <-].
Qed.

Lemma load_and_train_false students self self' :
  load_and_train students self = (self', false) → self' = self.
Proof.
  unfold load_and_train. destruct (faces (training_set students)) as [|f fs];
    [by intros [= <-]|].
  destruct (labels (training_set students)) as [|l ls]; [by intros [= <-]|].
  destruct (train _ _ _); [done | by intros [= <-]].
Qed.
End Loops_of_recognition.

(** The views, seen from the table. *)
Section Views.
Context `{cv : CV}.
Implicit Types (students : list Student) (table new : list Attendance).

(** The table after a group-photo submission is the one the marking loop
    leaves, run over the recognized students. *)
Lemma group_attendance_at_table T students coordinator event group_photo table :
  fst (group_attendance_at T students coordinator event group_photo table) =
  fst (mark_recognized coordinator event (recognized_of T students group_photo) 0 table).
Proof.
  unfold group_attendance_at, recognized_of. destruct group_photo as [image|]; [|done].
  destruct (detectMultiScale image) as [|rect rects]; [done|].
  destruct (fst (group_recognize T students image (rect :: rects))) as [rs|e]; [|done].
  by destruct (mark_recognized coordinator event rs 0 table) as [t' [m|e]].
Qed.

Lemma group_attendance_at_rows T students coordinator event group_photo table :
  ∃ new,
    fst (group_attendance_at T students coordinator event group_photo table) = table ++ new ∧
    fresh_rows table new ∧
    Forall (λ a, ∃ s, s ∈ recognized_of T students group_photo ∧
              a = new_row (s_id s) (e_id event) (auto_defaults coordinator)) new.
Proof.
  rewrite group_attendance_at_table.
  destruct (mark_recognized_rows coordinator event
              (recognized_of T students group_photo) 0 table)
    as (new & Htab & Hfresh & Hrows & _).
  by exists new.
Qed.

Lemma manual_attendance_rows to_pk students admin event ids admin_notes table :
  ∃ new,
    fst (manual_attendance to_pk students admin event ids admin_notes table) = table ++ new ∧
    fresh_rows table new ∧
    Forall (λ a, ∃ s sid, s ∈ students ∧ s_is_active s = true ∧
              sid ∈ ids ∧ to_pk sid = Some (s_id s) ∧
              a = new_row (s_id s) (e_id event) (manual_defaults admin admin_notes)) new.
Proof.
  unfold manual_attendance.
  destruct (mark_manual_rows to_pk students admin event admin_notes ids 0 table)
    as (new & Htab & Hfresh & Hrows & _).
  destruct ids as [|sid ids].
  - exists []. simpl. rewrite app_nil_r. split; [done|].
    split; [apply fresh_rows_nil | constructor].
  - exists new. split; [|done]. rewrite <- Htab.
    by destruct (mark_manual to_pk students admin event admin_notes (sid :: ids) 0 table)
      as [t' [m|e]].
Qed.

Lemma submit_rows to_pk (sub : submission) table :
  ∃ new, submit to_pk sub table = table ++ new ∧ fresh_rows table new.
Proof.
  destruct sub as [students coordinator event photo|students admin event ids notes]; simpl.
  - destruct (group_attendance_at_rows THRESHOLD students coordinator event photo table)
      as (new & Htab & Hfresh & _). by exists new.
  - destruct (manual_attendance_rows to_pk students admin event ids notes table)
      as (new & Htab & Hfresh & _). by exists new.
Qed.

(** Every recognized student is an active row of the table and was
    accepted for one of the detected faces. *)
Lemma recognized_of_accepted T students group_photo s :
  s ∈ recognized_of T students group_photo →
  ∃ image rect label confidence,
    group_photo = Some image ∧ rect ∈ detectMultiScale image ∧
    predict (recognizer (fst (load_and_train students init))) (face_roi image rect)
      = Ok (label, confidence) ∧
    accept T students (label_ids (fst (load_and_train students init)))
      (label, confidence) = Ok (Some s).
Proof.
  unfold recognized_of. destruct group_photo as [image|]; [|by intros ?%elem_of_nil].
  destruct (detectMultiScale image) as [|rect0 rects0] eqn:Hd; [by intros ?%elem_of_nil|].
  rewrite <- Hd. unfold group_recognize.
  destruct (recognize_each T students image (detectMultiScale image) []
              (fst (load_and_train students init))) as [[rs|e] rec'] eqn:Hloop;
    simpl; [|by intros ?%elem_of_nil].
  apply recognize_each_Ok in Hloop as (results & accepted & Hcl & Hp & -> & _).
  simpl. intros Hs.
  apply (matching_policy_elem _ _ _ _ _ _ Hp) in Hs as ([label confidence] & Hr & Hacc).
  apply list_elem_of_lookup in Hr as [i Hi].
  destruct (Forall2_lookup_r _ _ _ _ _ Hcl Hi) as (rect & Hrect & Hpred).
  exists image, rect, label, confidence. split; [done|].
  split; [by eapply list_elem_of_lookup_2|done].
Qed.

Lemma recognized_of_active T students group_photo s :
  s ∈ recognized_of T students group_photo → s ∈ students ∧ s_is_active s = true.
Proof.
  intros (image & rect & label & confidence & _ & _ & _ & Hacc)%recognized_of_accepted.
  apply accept_Some in Hacc as (_ & (m & _ & _ & Hin & Hact) & _). done.
Qed.
End Views.

(** The label map is built from active students only. *)
Section Training.
Context `{cv : CV}.

Lemma foldl_invariant {A B} (I : A → Prop) (f : A → B → A) (l : list B) (a : A) :
  I a → (∀ a b, b ∈ l → I a → I (f a b)) → I (foldl f a l).
Proof.
  revert a. induction l as [|b l IH]; intros a Ha Hstep; simpl; [done|].
  apply IH.
  - apply Hstep; [by left | done].
  - intros a' b' Hb'. apply Hstep. by right.
Qed.

Lemma add_student_enrolled students acc student :
  student ∈ students → s_is_active student = true →
  enrolled_ids students (t_label_ids acc) →
  enrolled_ids students (t_label_ids (add_student acc student)).
Proof.
  intros Hin Hact Hacc. unfold add_student.
  destruct (s_photo student) as [image_path|]; [|done].
  destruct (path_exists image_path); [|done].
  destruct (imread image_path) as [image|]; [|done].
  apply (foldl_invariant (λ acc, enrolled_ids students (t_label_ids acc))); [done|].
  intros acc' rect _ Hacc'. unfold add_face, enrolled_ids; simpl.
  apply map_Forall_insert_2; [by exists student | done].
Qed.

Lemma training_set_enrolled students :
  enrolled_ids students (t_label_ids (training_set students)).
Proof.
  unfold training_set.
  apply (foldl_invariant (λ acc, enrolled_ids students (t_label_ids acc))).
  - unfold enrolled_ids; simpl. apply map_Forall_empty.
  - intros acc student Hin Hacc. apply list_elem_of_filter in Hin as [Hact Hin].
    by apply add_student_enrolled.
Qed.

(** After the training of a fresh recognizer, every label of the map
    resolves to an active student of the table. *)
Lemma trained_label_resolves students label student_id m :
  label_ids (fst (load_and_train students init)) = Some m →
  m !! label = Some student_id →
  ∃ s, resolves students (Some m) label s ∧ s_student_id s = student_id.
Proof.
  destruct (load_and_train students init) as [rec [|]] eqn:Hlt; simpl.
  - apply load_and_train_true in Hlt as (_ & -> & _). intros [= <-] Hl.
    destruct (training_set_enrolled students label student_id Hl) as (s & Hin & Hact & Hsid).
    exists s. split; [|done]. exists (t_label_ids (training_set students)).
    by rewrite Hsid.
  - apply load_and_train_false in Hlt as ->. done.
Qed.
End Training.

(** Further lemmas on the recognizer and the concrete world. *)

(** The loop of [recognize_face] classifies a prefix of the detected faces
    and leaves the model and the label map as they are. *)
Lemma recognize_loop_log `{cv : CV} (image : Image) (rects : list Rect)
    (self : SimpleFaceRecognizer) :
  ∃ patches,
    snd (recognize_loop image rects self) = logged self patches ∧
    patches `prefix_of` (face_roi image <$> rects).
Proof.
  revert self. induction rects as [|rect rects IH]; intros self; simpl.
  - exists []. by rewrite logged_nil.
  - change (mkRecognizer (recognizer self) (label_ids self)
              (predicted self ++ [face_roi image rect]))
      with (logged self [face_roi image rect]).
    assert (Hstop : ∃ patches, logged self [face_roi image rect] = logged self patches ∧
              patches `prefix_of` face_roi image rect :: (face_roi image <$> rects)).
    { exists [face_roi image rect]. split; [done|]. by apply (prefix_app [_] []), prefix_nil. }
    destruct (predict (recognizer self) (face_roi image rect)) as [[label c]|]; [|exact Hstop].
    destruct (Qltb c THRESHOLD).
    + simpl. destruct (label_ids self); exact Hstop.
    + destruct (IH (logged self [face_roi image rect])) as (patches & -> & Hpre).
      exists (face_roi image rect :: patches). rewrite logged_logged.
      split; [done | by apply (prefix_app [_])].
Qed.

(** Without a training face the group-photo view writes nothing, whatever
    the classifier answers for the faces of the photo. *)
Lemma group_attendance_untrainable `{cv : CV} (T : Q) (students : list Student)
    (coordinator : Student) (event : Event) (group_photo : option Image)
    (table : list Attendance) :
  faces (training_set students) = [] →
  fst (group_attendance_at T students coordinator event group_photo table) = table.
Proof.
  intros Hempty. rewrite group_attendance_at_table.
  assert (recognized_of T students group_photo = []) as ->; [|done].
  destruct (recognized_of T students group_photo) as [|s l] eqn:E; [done|].
  assert (Hs : s ∈ recognized_of T students group_photo) by (rewrite E; by left).
  apply recognized_of_accepted in Hs as (image & rect & label & c & _ & _ & _ & Hacc).
  rewrite (load_and_train_untrainable students init Hempty) in Hacc.
  simpl in Hacc. by destruct (Qltb c T).
Qed.

(** A student id returned by the loop of [recognize_face] belongs to a
    classified face below the cut-off whose label the map resolves. *)
Lemma recognize_loop_Some `{cv : CV} (image : Image) (rects : list Rect)
    (self : SimpleFaceRecognizer) (student_id : string) :
  fst (recognize_loop image rects self) = Some student_id →
  ∃ rect label confidence,
    rect ∈ rects ∧
    predict (recognizer self) (face_roi image rect) = Ok (label, confidence) ∧
    (confidence < THRESHOLD)%Q ∧
    label_ids self ≫= (.!! label) = Some student_id.
Proof.
  revert self. induction rects as [|rect rects IH]; intros self; simpl; [done|].
  destruct (predict (recognizer self) (face_roi image rect)) as [[label c]|] eqn:Hp;
    [|done].
  destruct (Qltb c THRESHOLD) eqn:Hc.
  - simpl. intros Hres. exists rect, label, c. split; [by left|]. split; [done|].
    split; [by apply Qltb_lt|]. by destruct (label_ids self).
  - intros Hres. apply IH in Hres as (rect' & label' & c' & Hin & Hp' & Hc' & Hl).
    exists rect', label', c'. split; [by right|]. done.
Qed.

Lemma toy_students_unique : unique_student_ids toy_students.
Proof.
  unfold unique_student_ids.
  exact (bool_decide_unpack (NoDup (s_student_id <$> toy_students)) I).
Defined.

Lemma toy_students_nonempty : nonempty_student_ids toy_students.
Proof. unfold nonempty_student_ids, toy_students. by repeat constructor. Defined.

(** * The claims *)

(** C1.  Whatever sequence of group-photo and manual submissions is served,
    a table with at most one attendance row per (student, event) pair keeps
    that property, and the sequence only appends rows: uniqueness comes from
    the [get_or_create] of each write path, no row is ever removed. *)
Theorem C1_one_record_per_pair `{cv : CV} (to_pk : string → option Z)
    (subs : list submission) (table : list Attendance) :
  unique_pairs table →
  unique_pairs (submit_all to_pk subs table) ∧
  table `prefix_of` submit_all to_pk subs table.
Proof.
  unfold submit_all. revert table. induction subs as [|sub subs IH]; intros table Huniq.
  - done.
  - simpl. destruct (submit_rows to_pk sub table) as (new & Htab & Hfresh).
    destruct (IH (submit to_pk sub table)) as [Hu Hpre].
    { rewrite Htab. by apply fresh_rows_unique. }
    split; [done|]. etrans; [|exact Hpre]. rewrite Htab. by apply prefix_app_r.
Qed.

Lemma C1_one_record_per_pair_witness :
  unique_pairs [] ∧
  unique_pairs (submit_all toy_to_pk toy_submissions []) ∧
  [] `prefix_of` submit_all toy_to_pk toy_submissions [].
Proof.
  split; [intros student event; simpl; lia|].
  apply (C1_one_record_per_pair toy_to_pk toy_submissions []).
  intros student event; simpl; lia.
Defined.

(** C2.  On a table with at most one row per pair, [get_or_create] for a
    pair that has a row returns the table as it is, that row and
    [created = False], without raising; and a group photo submitted a second
    time against the same event leaves the table of the first submission
    untouched and counts zero new records. *)
Theorem C2_duplicate_submission_is_noop `{cv : CV} (students : list Student)
    (coordinator : Student) (event : Event) (group_photo : option Image)
    (table : list Attendance) :
  unique_pairs table →
  (∀ student ev defaults a, a ∈ table → for_pair student ev a →
     get_or_create student ev defaults table = Ok (table, a, false)) ∧
  (∀ table1 outcome1,
     group_attendance students coordinator event group_photo table = (table1, outcome1) →
     group_attendance students coordinator event group_photo table1 =
       (table1, match outcome1 with
                | GroupCompleted detected recognized _ => GroupCompleted detected recognized 0
                | o => o
                end)).
Proof.
  intros Huniq. split.
  - intros student ev defaults a Hin Hpair.
    assert (Ha : a ∈ filter (for_pair student ev) table) by (by apply list_elem_of_filter).
    specialize (Huniq student ev).
    destruct (get_or_create_cases student ev defaults table)
      as [[Hf E]|[(a' & Hf & E)|[Hf E]]]; [| |lia].
    + rewrite Hf in Ha. by apply elem_of_nil in Ha.
    + rewrite Hf in Ha. apply list_elem_of_singleton in Ha. by subst.
  - unfold group_attendance, group_attendance_at.
    destruct group_photo as [image|]; [|by intros ? ? [= <- <-]].
    destruct (detectMultiScale image) as [|rect rects]; [by intros ? ? [= <- <-]|].
    destruct (fst (group_recognize THRESHOLD students image (rect :: rects))) as [rs|e];
      [|by intros ? ? [= <- <-]].
    destruct (mark_recognized_rows coordinator event rs 0 table)
      as (new & Htab & Hfresh & _ & Hcount).
    destruct (mark_recognized_total coordinator event rs 0 table Huniq) as [m Hm].
    destruct (mark_recognized coordinator event rs 0 table) as [t' o] eqn:Hmark.
    simpl in *. subst t' o. intros table1 outcome1 [= <- <-].
    destruct (Hcount m eq_refl) as [_ Hcov].
    rewrite (mark_recognized_again coordinator event rs 0 (table ++ new)); [done| |done].
    by apply fresh_rows_unique.
Qed.

Lemma C2_duplicate_submission_is_noop_witness :
  unique_pairs [] ∧
  group_attendance (cv := toy_cv) toy_students bob toy_event (@imread toy_cv "group.jpg") []
    = ([new_row 1 1 (auto_defaults bob); new_row 2 1 (auto_defaults bob)],
       GroupCompleted 3 2 2) ∧
  group_attendance (cv := toy_cv) toy_students bob toy_event (@imread toy_cv "group.jpg")
      [new_row 1 1 (auto_defaults bob); new_row 2 1 (auto_defaults bob)]
    = ([new_row 1 1 (auto_defaults bob); new_row 2 1 (auto_defaults bob)],
       GroupCompleted 3 2 0).
Proof.
  assert (Huniq : unique_pairs []) by (intros student event; simpl; lia).
  split; [exact Huniq|]. split; [reflexivity|].
  exact (proj2 (C2_duplicate_submission_is_noop (cv := toy_cv) toy_students bob toy_event
                  (@imread toy_cv "group.jpg") [] Huniq) _ _ eq_refl).
Defined.

(** C3 (as the code has it).  When the accumulated training set is empty,
    [load_and_train] returns [False] and leaves the recognizer as it was, and
    a following [recognize_face] returns [None] with the recognizer, its
    call log included, unchanged: neither [train] nor [predict] ran. *)
Theorem C3_untrainable_returns_none `{cv : CV} (students : list Student)
    (image_path : string) (self : SimpleFaceRecognizer) :
  faces (training_set students) = [] →
  label_ids self = None →
  load_and_train students self = (self, false) ∧
  recognize_face students image_path self = (None, self).
Proof.
  intros Hempty Hids. pose proof (load_and_train_untrainable students self Hempty) as Hlt.
  split; [done|]. unfold recognize_face. by rewrite Hids, Hlt.
Qed.

Lemma C3_untrainable_returns_none_witness :
  faces (training_set (cv := toy_cv) []) = [] ∧
  label_ids (init (cv := toy_cv)) = None ∧
  load_and_train (cv := toy_cv) [] init = (init, false) ∧
  recognize_face (cv := toy_cv) [] "group.jpg" init = (None, init).
Proof.
  split; [reflexivity|]. split; [reflexivity|].
  exact (C3_untrainable_returns_none (cv := toy_cv) [] "group.jpg" init eq_refl eq_refl).
Defined.

(** C3, the claim as stated fails: with nobody enrolled, [recognize_face]
    answers [None] for a photo; with Alice and Bob enrolled and a trained
    model it answers the same [None] for a photo whose only face matches
    nobody (the classifier ran once).  The caller cannot tell the missing
    model from "no match". *)
Lemma C3_untrainable_not_surfaced :
  faces (training_set (cv := toy_cv) []) = [] ∧
  fst (recognize_face (cv := toy_cv) [] "stranger.jpg" init) = None ∧
  snd (load_and_train (cv := toy_cv) toy_students init) = true ∧
  predicted (snd (recognize_face (cv := toy_cv) toy_students "stranger.jpg" init))
    = [(0, 95%Q)] ∧
  fst (recognize_face (cv := toy_cv) toy_students "stranger.jpg" init)
    = fst (recognize_face (cv := toy_cv) [] "stranger.jpg" init).
Proof. repeat split; reflexivity. Qed.

(** C4.  With unique, non-empty student ids in the table: a prediction is
    accepted for student [s] exactly when its confidence is strictly below
    the threshold and its label resolves to [s]; every other prediction is
    passed over; and every row a group-photo submission writes is for a
    student some detected face was accepted for.  [recognize_face] likewise
    returns a student id only for a face below the cut-off whose label the
    map resolves.  In the view, where the recognizer is trained from the same
    table, every label the map knows resolves to an active student. *)
Theorem C4_accepted_iff_below_threshold_and_resolved `{cv : CV} (T : Q)
    (students : list Student) :
  unique_student_ids students →
  nonempty_student_ids students →
  (∀ ids label confidence s,
     accept T students ids (label, confidence) = Ok (Some s) ↔
     (confidence < T)%Q ∧ resolves students ids label s) ∧
  (∀ ids label confidence,
     ¬ ((confidence < T)%Q ∧ ∃ s, resolves students ids label s) →
     accept T students ids (label, confidence) = Ok None) ∧
  (∀ coordinator event group_photo table,
     ∃ new,
       fst (group_attendance_at T students coordinator event group_photo table)
         = table ++ new ∧
       Forall (λ a, ∃ image rect label confidence s,
                 group_photo = Some image ∧ rect ∈ detectMultiScale image ∧
                 predict (recognizer (fst (load_and_train students init)))
                   (face_roi image rect) = Ok (label, confidence) ∧
                 (confidence < T)%Q ∧
                 resolves students (label_ids (fst (load_and_train students init))) label s ∧
                 a_student a = s_id s) new) ∧
  (∀ image rects self student_id,
     fst (recognize_loop image rects self) = Some student_id →
     ∃ rect label confidence,
       rect ∈ rects ∧
       predict (recognizer self) (face_roi image rect) = Ok (label, confidence) ∧
       (confidence < THRESHOLD)%Q ∧
       label_ids self ≫= (.!! label) = Some student_id) ∧
  (∀ m label student_id,
     label_ids (fst (load_and_train students init)) = Some m →
     m !! label = Some student_id →
     ∃ s, resolves students (Some m) label s ∧ s_student_id s = student_id).
Proof.
  intros Huniq Hne. split; [|split; [|split; [|split]]].
  - intros ids label c s. split.
    + intros Hacc. by apply accept_Some in Hacc as (? & ? & _).
    + intros [Hc Hres]. by apply accept_resolved.
  - intros ids label c Hnot.
    destruct (accept_total T students ids (label, c) Huniq) as [[s|] Hacc]; [|done].
    exfalso. apply Hnot. apply accept_Some in Hacc as (? & ? & _). split; [done|].
    by exists s.
  - intros coordinator event photo table.
    destruct (group_attendance_at_rows T students coordinator event photo table)
      as (new & Htab & _ & Hrows).
    exists new. split; [done|]. eapply Forall_impl; [exact Hrows|].
    intros a (s & Hs & ->).
    apply recognized_of_accepted in Hs as (image & rect & label & c & Hph & Hin & Hp & Hacc).
    apply accept_Some in Hacc as (Hc & Hres & _).
    by exists image, rect, label, c, s.
  - intros image rects self student_id. apply recognize_loop_Some.
  - intros m label student_id. apply trained_label_resolves.
Qed.

Lemma C4_accepted_iff_below_threshold_and_resolved_witness :
  unique_student_ids toy_students ∧
  nonempty_student_ids toy_students ∧
  ∀ ids label confidence s,
    accept THRESHOLD toy_students ids (label, confidence) = Ok (Some s) ↔
    (confidence < THRESHOLD)%Q ∧ resolves toy_students ids label s.
Proof.
  split; [exact toy_students_unique|]. split; [exact toy_students_nonempty|].
  exact (proj1 (C4_accepted_iff_below_threshold_and_resolved (cv := toy_cv) THRESHOLD
                  toy_students toy_students_unique toy_students_nonempty)).
Defined.

(** C5.  For a fixed list of predictions, lowering the threshold from [T] to
    [T'] never enlarges what the matching policy accepts: the list accepted
    at [T'] is no longer than the one accepted at [T], and it names no more
    identities.  The loop of the view returns exactly these lists. *)
Theorem C5_threshold_monotone `{cv : CV} (T' T : Q) (students : list Student)
    (image : Image) (rects : list Rect) (results : list (Z * Q))
    (rec : SimpleFaceRecognizer) :
  unique_student_ids students →
  classified (recognizer rec) image rects results →
  (T' <= T)%Q →
  ∃ accepted' accepted,
    matching_policy T' students (label_ids rec) results = Ok accepted' ∧
    matching_policy T students (label_ids rec) results = Ok accepted ∧
    fst (recognize_each T' students image rects [] rec) = Ok accepted' ∧
    fst (recognize_each T students image rects [] rec) = Ok accepted ∧
    (length accepted' ≤ length accepted)%nat ∧
    (size (identities accepted') ≤ size (identities accepted))%nat.
Proof.
  intros Huniq Hcl Hle.
  destruct (matching_policy_total T students (label_ids rec) results Huniq) as [accepted Hp].
  destruct (matching_policy_threshold T' T students (label_ids rec) results accepted Hle Hp)
    as (accepted' & Hp' & Hsub).
  exists accepted', accepted. split; [done|]. split; [done|].
  rewrite (recognize_each_policy T' students image rects results [] rec Hcl accepted' Hp').
  rewrite (recognize_each_policy T students image rects results [] rec Hcl accepted Hp).
  split; [done|]. split; [done|]. split; [by apply sublist_length|].
  apply subseteq_size. unfold identities. intros pk Hpk.
  apply elem_of_list_to_set in Hpk. apply elem_of_list_to_set.
  apply list_elem_of_fmap in Hpk as (s & -> & Hs). apply list_elem_of_fmap_2.
  by eapply sublist_subseteq.
Qed.

Lemma C5_threshold_monotone_witness :
  unique_student_ids toy_students ∧
  classified (cv := toy_cv) true [(0, 25%Q); (1, 30%Q); (7, 95%Q)]
    (detectMultiScale (CV := toy_cv) [(0, 25%Q); (1, 30%Q); (7, 95%Q)])
    [(0, 25%Q); (1, 30%Q); (7, 95%Q)] ∧
  (28 <= 70)%Q ∧
  ∃ accepted' accepted,
    fst (recognize_each (cv := toy_cv) 28 toy_students [(0, 25%Q); (1, 30%Q); (7, 95%Q)]
           (detectMultiScale (CV := toy_cv) [(0, 25%Q); (1, 30%Q); (7, 95%Q)]) []
           (fst (load_and_train (cv := toy_cv) toy_students init))) = Ok accepted' ∧
    fst (recognize_each (cv := toy_cv) 70 toy_students [(0, 25%Q); (1, 30%Q); (7, 95%Q)]
           (detectMultiScale (CV := toy_cv) [(0, 25%Q); (1, 30%Q); (7, 95%Q)]) []
           (fst (load_and_train (cv := toy_cv) toy_students init))) = Ok accepted ∧
    (length accepted' ≤ length accepted)%nat.
Proof.
  assert (Hcl : classified (cv := toy_cv) true [(0, 25%Q); (1, 30%Q); (7, 95%Q)]
                  (detectMultiScale (CV := toy_cv) [(0, 25%Q); (1, 30%Q); (7, 95%Q)])
                  [(0, 25%Q); (1, 30%Q); (7, 95%Q)]).
  { unfold classified. simpl. repeat constructor. }
  assert (Hle : (28 <= 70)%Q) by (unfold Qle; simpl; lia).
  split; [exact toy_students_unique|]. split; [exact Hcl|]. split; [exact Hle|].
  destruct (C5_threshold_monotone (cv := toy_cv) 28 70 toy_students
              [(0, 25%Q); (1, 30%Q); (7, 95%Q)]
              (detectMultiScale (CV := toy_cv) [(0, 25%Q); (1, 30%Q); (7, 95%Q)])
              [(0, 25%Q); (1, 30%Q); (7, 95%Q)]
              (fst (load_and_train (cv := toy_cv) toy_students init))
              toy_students_unique Hcl Hle)
    as (accepted' & accepted & _ & _ & H1 & H2 & Hlen & _).
  exists accepted', accepted. split; [exact H1|]. split; [exact H2|]. exact Hlen.
Defined.

(** C6.  One group-photo submission adds at most one attendance row for any
    (student, event) pair, however many of the accepted faces resolve to that
    student: the rows it appends contain at most one row per pair. *)
Theorem C6_one_new_record_per_identity `{cv : CV} (students : list Student)
    (coordinator : Student) (event : Event) (group_photo : option Image)
    (table : list Attendance) :
  ∃ new,
    fst (group_attendance students coordinator event group_photo table) = table ++ new ∧
    ∀ student ev, (length (filter (for_pair student ev) new) ≤ 1)%nat.
Proof.
  destruct (group_attendance_at_rows THRESHOLD students coordinator event group_photo table)
    as (new & Htab & Hfresh & _).
  exists new. split; [done|]. intros student ev. apply Hfresh.
Qed.

(** Scenario C: two detections of Alice's face, both below the cut-off; she
    is recognized twice and gets one row. *)
Example scenario_twice :
  recognized_of (cv := toy_cv) THRESHOLD toy_students (@imread toy_cv "twice.jpg")
    = [alice; alice] ∧
  group_attendance (cv := toy_cv) toy_students bob toy_event (@imread toy_cv "twice.jpg") []
    = ([new_row 1 1 (auto_defaults bob)], GroupCompleted 2 2 1).
Proof. split; reflexivity. Qed.

(** C7 (as the code has it).  When the classifier raises for none of the
    detected faces and student ids are unique, the loop of the group-photo
    view classifies every detected face once, in detection order, and returns
    what the matching policy accepts among the predictions, in that order; a
    label without an entry in the label map is passed over.  [recognize_face]
    classifies a prefix of the detected faces: it stops at the first face
    below the cut-off and returns that face's entry of the label map. *)
Theorem C7_one_classification_per_face `{cv : CV} (T : Q) (students : list Student)
    (image : Image) (rects : list Rect) (results : list (Z * Q))
    (rec : SimpleFaceRecognizer) :
  unique_student_ids students →
  classified (recognizer rec) image rects results →
  (∃ accepted,
     recognize_each T students image rects [] rec
       = (Ok accepted, logged rec (face_roi image <$> rects)) ∧
     matching_policy T students (label_ids rec) results = Ok accepted) ∧
  (∀ m label confidence,
     label_ids rec = Some m → m !! label = None →
     accept T students (label_ids rec) (label, confidence) = Ok None) ∧
  (∃ patches,
     snd (recognize_loop image rects rec) = logged rec patches ∧
     patches `prefix_of` (face_roi image <$> rects)) ∧
  (∀ pre rect post label confidence,
     rects = pre ++ rect :: post →
     Forall (λ r, ∃ l c, predict (recognizer rec) (face_roi image r) = Ok (l, c) ∧
                         ¬ (c < THRESHOLD)%Q) pre →
     predict (recognizer rec) (face_roi image rect) = Ok (label, confidence) →
     (confidence < THRESHOLD)%Q →
     recognize_loop image rects rec =
       (label_ids rec ≫= (.!! label), logged rec (face_roi image <$> (pre ++ [rect])))).
Proof.
  intros Huniq Hcl. split; [|split; [|split]].
  - destruct (matching_policy_total T students (label_ids rec) results Huniq)
      as [accepted Hp].
    exists accepted. split; [|done].
    by rewrite (recognize_each_policy T students image rects results [] rec Hcl accepted Hp).
  - intros m label c -> Hnone. unfold accept. rewrite Hnone. by destruct (Qltb c T).
  - apply recognize_loop_log.
  - intros pre rect post label c -> Hpre Hp Hc.
    by apply (recognize_loop_stop image pre rect post rec label c).
Qed.

Lemma C7_one_classification_per_face_witness :
  unique_student_ids toy_students ∧
  classified (cv := toy_cv) true [(0, 25%Q); (1, 30%Q); (7, 95%Q)]
    (detectMultiScale (CV := toy_cv) [(0, 25%Q); (1, 30%Q); (7, 95%Q)])
    [(0, 25%Q); (1, 30%Q); (7, 95%Q)] ∧
  ∃ accepted,
    recognize_each (cv := toy_cv) THRESHOLD toy_students [(0, 25%Q); (1, 30%Q); (7, 95%Q)]
      (detectMultiScale (CV := toy_cv) [(0, 25%Q); (1, 30%Q); (7, 95%Q)]) []
      (fst (load_and_train (cv := toy_cv) toy_students init))
    = (Ok accepted,
       logged (fst (load_and_train (cv := toy_cv) toy_students init))
         [(0, 25%Q); (1, 30%Q); (7, 95%Q)]) ∧
    matching_policy THRESHOLD toy_students
      (label_ids (fst (load_and_train (cv := toy_cv) toy_students init)))
      [(0, 25%Q); (1, 30%Q); (7, 95%Q)] = Ok accepted.
Proof.
  assert (Hcl : classified (cv := toy_cv) true [(0, 25%Q); (1, 30%Q); (7, 95%Q)]
                  (detectMultiScale (CV := toy_cv) [(0, 25%Q); (1, 30%Q); (7, 95%Q)])
                  [(0, 25%Q); (1, 30%Q); (7, 95%Q)]).
  { unfold classified. simpl. repeat constructor. }
  split; [exact toy_students_unique|]. split; [exact Hcl|].
  exact (proj1 (C7_one_classification_per_face (cv := toy_cv) THRESHOLD toy_students
                  [(0, 25%Q); (1, 30%Q); (7, 95%Q)]
                  (detectMultiScale (CV := toy_cv) [(0, 25%Q); (1, 30%Q); (7, 95%Q)])
                  [(0, 25%Q); (1, 30%Q); (7, 95%Q)]
                  (fst (load_and_train (cv := toy_cv) toy_students init))
                  toy_students_unique Hcl)).
Defined.

(** C7, the claim as stated fails for [recognize_face]: in a photo with three
    detected faces, two of them below the cut-off and resolving to Alice and
    to Bob, it classifies the first face only and answers with Alice's id;
    the other two faces get no recognition result. *)
Lemma C7_recognize_face_stops_at_first_match :
  @imread toy_cv "group.jpg" = Some [(0, 25%Q); (1, 30%Q); (7, 95%Q)] ∧
  length (detectMultiScale (CV := toy_cv) [(0, 25%Q); (1, 30%Q); (7, 95%Q)]) = 3%nat ∧
  fst (recognize_face (cv := toy_cv) toy_students "group.jpg" init) = Some "STU0001" ∧
  predicted (snd (recognize_face (cv := toy_cv) toy_students "group.jpg" init))
    = [(0, 25%Q)] ∧
  length (predicted (snd (recognize_face (cv := toy_cv) toy_students "group.jpg" init)))
    ≠ length (detectMultiScale (CV := toy_cv) [(0, 25%Q); (1, 30%Q); (7, 95%Q)]).
Proof. repeat split; try reflexivity. simpl. lia. Qed.

(** C8 (as the code has it).  For a readable image without a detected face,
    the group-photo view writes nothing and ends with its own message,
    'No faces detected in the group photo!'; that outcome occurs for no other
    input.  [recognize_face] returns [None] for such an image, without a call
    to the classifier. *)
Theorem C8_no_face_outcome `{cv : CV} (T : Q) (students : list Student)
    (coordinator : Student) (event : Event) (image : Image) (image_path : string)
    (self : SimpleFaceRecognizer) (table : list Attendance) :
  detectMultiScale image = [] →
  group_attendance_at T students coordinator event (Some image) table
    = (table, NoFacesDetected) ∧
  (∀ group_photo,
     snd (group_attendance_at T students coordinator event group_photo table)
       = NoFacesDetected →
     ∃ image', group_photo = Some image' ∧ detectMultiScale image' = []) ∧
  (imread image_path = Some image →
   fst (recognize_face students image_path self) = None ∧
   predicted (snd (recognize_face students image_path self)) = predicted self).
Proof.
  intros Hnone. split; [|split].
  - unfold group_attendance_at. by rewrite Hnone.
  - intros photo. unfold group_attendance_at. destruct photo as [image'|]; [|done].
    destruct (detectMultiScale image') as [|rect rects] eqn:Hd; [by exists image'|].
    destruct (fst (group_recognize T students image' (rect :: rects))); [|done].
    by destruct (mark_recognized _ _ _ _ _) as [t' [m|e]].
  - intros Hread. unfold recognize_face.
    destruct (label_ids self) eqn:Hids.
    + by rewrite Hread, Hnone.
    + destruct (load_and_train students self) as [self' [|]] eqn:Hlt.
      * rewrite Hread, Hnone. simpl. split; [done|].
        by apply load_and_train_true in Hlt as (_ & _ & ->).
      * by apply load_and_train_false in Hlt as ->.
Qed.

Lemma C8_no_face_outcome_witness :
  detectMultiScale (CV := toy_cv) [] = [] ∧
  group_attendance_at (cv := toy_cv) THRESHOLD toy_students bob toy_event (Some []) []
    = ([], NoFacesDetected).
Proof.
  split; [reflexivity|].
  exact (proj1 (C8_no_face_outcome (cv := toy_cv) THRESHOLD toy_students bob toy_event
                  [] "empty.jpg" init [] eq_refl)).
Defined.

(** C8, the claim as stated fails: the view reports a photo without a face
    through [messages.error], and [recognize_face] answers [None] for it, the
    answer it also gives for a file that cannot be read. *)
Lemma C8_no_face_is_an_error :
  @imread toy_cv "empty.jpg" = Some [] ∧
  detectMultiScale (CV := toy_cv) [] = [] ∧
  @imread toy_cv "broken.jpg" = None ∧
  message_level (snd (group_attendance (cv := toy_cv) toy_students bob toy_event
                        (@imread toy_cv "empty.jpg") [])) = error ∧
  fst (recognize_face (cv := toy_cv) toy_students "empty.jpg" init)
    = fst (recognize_face (cv := toy_cv) toy_students "broken.jpg" init).
Proof. repeat split; reflexivity. Qed.

(** C9.  Every row the manual path creates has [is_manual = True] and notes
    that are not empty; every row the group-photo path creates has
    [is_manual = False] and no notes. *)
Theorem C9_manual_flag_and_notes `{cv : CV} (to_pk : string → option Z)
    (students : list Student) (actor : Student) (event : Event)
    (student_ids : list string) (admin_notes : string)
    (group_photo : option Image) (table : list Attendance) :
  (∃ new,
     fst (manual_attendance to_pk students actor event student_ids admin_notes table)
       = table ++ new ∧
     Forall (λ a, a_is_manual a = true ∧
                  ∃ notes, a_notes a = Some notes ∧ notes ≠ EmptyString) new) ∧
  (∃ new,
     fst (group_attendance students actor event group_photo table) = table ++ new ∧
     Forall (λ a, a_is_manual a = false ∧ a_notes a = None) new).
Proof.
  split.
  - destruct (manual_attendance_rows to_pk students actor event student_ids admin_notes table)
      as (new & Htab & _ & Hrows).
    exists new. split; [done|]. eapply Forall_impl; [exact Hrows|].
    intros a (s & sid & _ & _ & _ & _ & ->). simpl. split; [done|].
    exists (manual_notes admin_notes). split; [done|]. done.
  - destruct (group_attendance_at_rows THRESHOLD students actor event group_photo table)
      as (new & Htab & _ & Hrows).
    exists new. split; [done|]. eapply Forall_impl; [exact Hrows|].
    by intros a (s & _ & ->).
Qed.

(** Scenario B: three faces, two below the cut-off resolving to Alice and
    Bob, one above it; two rows are written, and Carol is then marked by
    hand. *)
Example scenario_group_then_manual :
  group_attendance (cv := toy_cv) toy_students bob toy_event (@imread toy_cv "group.jpg") []
    = ([new_row 1 1 (auto_defaults bob); new_row 2 1 (auto_defaults bob)],
       GroupCompleted 3 2 2) ∧
  manual_attendance toy_to_pk toy_students alice toy_event ["3"] "Arrived late"
      [new_row 1 1 (auto_defaults bob); new_row 2 1 (auto_defaults bob)]
    = ([new_row 1 1 (auto_defaults bob); new_row 2 1 (auto_defaults bob);
        mkAttendance 3 1 1 true (Some "Manually marked by admin. Arrived late")],
       ManualCompleted 1).
Proof. split; reflexivity. Qed.

(** C10.  Every row created by either write path refers to a student that is
    an active row of the [Student] table the request reads; and the manual
    loop passes over a submitted id that no active student carries, writing
    nothing for it. *)
Theorem C10_rows_reference_active_students `{cv : CV} (to_pk : string → option Z)
    (students : list Student) (actor : Student) (event : Event)
    (student_ids : list string) (admin_notes : string)
    (group_photo : option Image) (table : list Attendance) :
  (∃ new,
     fst (group_attendance students actor event group_photo table) = table ++ new ∧
     Forall (references_active students) new) ∧
  (∃ new,
     fst (manual_attendance to_pk students actor event student_ids admin_notes table)
       = table ++ new ∧
     Forall (references_active students) new) ∧
  (∀ student_id pk rest n,
     to_pk student_id = Some pk →
     (∀ s, s ∈ students → s_id s = pk → s_is_active s = false) →
     mark_manual to_pk students actor event admin_notes (student_id :: rest) n table =
     mark_manual to_pk students actor event admin_notes rest n table).
Proof.
  split; [|split].
  - destruct (group_attendance_at_rows THRESHOLD students actor event group_photo table)
      as (new & Htab & _ & Hrows).
    exists new. split; [done|]. eapply Forall_impl; [exact Hrows|].
    intros a (s & Hs & ->). apply recognized_of_active in Hs as [Hin Hact].
    by exists s.
  - destruct (manual_attendance_rows to_pk students actor event student_ids admin_notes table)
      as (new & Htab & _ & Hrows).
    exists new. split; [done|]. eapply Forall_impl; [exact Hrows|].
    intros a (s & sid & Hin & Hact & _ & _ & ->). by exists s.
  - intros student_id pk rest n Hpk Hnone. simpl. rewrite Hpk.
    destruct (objects_get_cases (active_with_pk pk) students)
      as [[_ E]|[(s & Hf & E)|[Hlen E]]]; rewrite E; [done| |].
    + apply objects_get_Ok in E as [[Hid Hact] Hin].
      rewrite (Hnone s Hin Hid) in Hact. done.
    + destruct (filter (active_with_pk pk) students) as [|s l] eqn:Hf; [simpl in Hlen; lia|].
      assert (Hs : s ∈ filter (active_with_pk pk) students) by (rewrite Hf; by left).
      apply list_elem_of_filter in Hs as [[Hid Hact] Hin].
      rewrite (Hnone s Hin Hid) in Hact. done.
Qed.

Lemma C10_rows_reference_active_students_witness :
  toy_to_pk "4" = Some 4 ∧
  (∀ s, s ∈ toy_students → s_id s = 4 → s_is_active s = false) ∧
  mark_manual toy_to_pk toy_students alice toy_event "late" ["4"; "3"] 0 [] =
  mark_manual toy_to_pk toy_students alice toy_event "late" ["3"] 0 [].
Proof.
  assert (Hnone : ∀ s, s ∈ toy_students → s_id s = 4 → s_is_active s = false).
  { intros s Hs Hid. unfold toy_students in Hs.
    repeat (apply elem_of_cons in Hs as [->|Hs]; [by (reflexivity || discriminate Hid)|]).
    by apply elem_of_nil in Hs. }
  split; [reflexivity|]. split; [exact Hnone|].
  exact (proj2 (proj2 (C10_rows_reference_active_students (cv := toy_cv) toy_to_pk
           toy_students alice toy_event [] "late" None [])) "4" 4 ["3"] 0%nat eq_refl Hnone).
Defined.

(** * Further properties of the code *)

(** ** face_utils.py: training *)

Section Training_labels.
Context `{cv : CV}.

(** The accumulators of [load_and_train] after [n] faces: labels [0 .. n-1]
    in order, [current_id = n], and a label map with exactly these keys. *)
Lemma add_face_numbering student image acc rect :
  labels acc = Z.of_nat <$> seq 0 (length (faces acc)) →
  current_id acc = Z.of_nat (length (faces acc)) →
  (∀ label, is_Some (t_label_ids acc !! label) ↔ 0 ≤ label < Z.of_nat (length (faces acc))) →
  let acc' := add_face student image acc rect in
  labels acc' = Z.of_nat <$> seq 0 (length (faces acc')) ∧
  current_id acc' = Z.of_nat (length (faces acc')) ∧
  (∀ label, is_Some (t_label_ids acc' !! label) ↔ 0 ≤ label < Z.of_nat (length (faces acc'))).
Proof.
  intros Hl Hc Hd. simpl. rewrite length_app. simpl.
  replace (length (faces acc) + 1)%nat with (S (length (faces acc))) by lia.
  split; [|split].
  - rewrite seq_S, fmap_app. simpl. by rewrite Hl, Hc.
  - rewrite Hc. lia.
  - intros label. rewrite lookup_insert_is_Some, Hd, Hc. lia.
Qed.

Lemma training_set_numbering students :
  labels (training_set students)
    = Z.of_nat <$> seq 0 (length (faces (training_set students))) ∧
  current_id (training_set students) = Z.of_nat (length (faces (training_set students))) ∧
  (∀ label, is_Some (t_label_ids (training_set students) !! label) ↔
            0 ≤ label < Z.of_nat (length (faces (training_set students)))).
Proof.
  unfold training_set.
  apply (foldl_invariant (λ acc,
    labels acc = Z.of_nat <$> seq 0 (length (faces acc)) ∧
    current_id acc = Z.of_nat (length (faces acc)) ∧
    (∀ label, is_Some (t_label_ids acc !! label) ↔ 0 ≤ label < Z.of_nat (length (faces acc))))).
  - simpl. split; [done|]. split; [done|]. intros label.
    rewrite lookup_empty. split; [by intros [? ?] | lia].
  - intros acc student _ Hacc. unfold add_student.
    destruct (s_photo student) as [image_path|]; [|done].
    destruct (path_exists image_path); [|done].
    destruct (imread image_path) as [image|]; [|done].
    apply (foldl_invariant (λ acc,
      labels acc = Z.of_nat <$> seq 0 (length (faces acc)) ∧
      current_id acc = Z.of_nat (length (faces acc)) ∧
      (∀ label, is_Some (t_label_ids acc !! label) ↔
                0 ≤ label < Z.of_nat (length (faces acc))))); [done|].
    intros acc' rect _ (Hl & Hc & Hd). by apply add_face_numbering.
Qed.
End Training_labels.

(** X1.  [load_and_train] numbers the training faces from 0 in the order it
    meets them: the list of labels is [0, 1, ..., n-1] for [n] training faces,
    and the label map has an entry for exactly these labels, each the student
    id of an active student of the table. *)
Theorem training_labels_are_consecutive `{cv : CV} (students : list Student) :
  labels (training_set students)
    = Z.of_nat <$> seq 0 (length (faces (training_set students))) ∧
  length (labels (training_set students)) = length (faces (training_set students)) ∧
  (∀ label, is_Some (t_label_ids (training_set students) !! label) ↔
            0 ≤ label < Z.of_nat (length (faces (training_set students)))) ∧
  (∀ label student_id,
     t_label_ids (training_set students) !! label = Some student_id →
     ∃ s, s ∈ students ∧ s_is_active s = true ∧ s_student_id s = student_id).
Proof.
  destruct (training_set_numbering students) as (Hl & _ & Hd).
  split; [done|]. split; [by rewrite Hl, length_fmap, length_seq|]. split; [done|].
  intros label student_id Hlookup. exact (training_set_enrolled students label student_id Hlookup).
Qed.

(** X2.  [load_and_train] returns [True] exactly when at least one training
    face was found and [train] did not raise (the test on [labels] never
    decides); the recognizer then holds the trained model and the whole label
    map, and its call log is as before.  When it returns [False] the
    recognizer is unchanged. *)
Theorem load_and_train_succeeds_iff `{cv : CV} (students : list Student)
    (self : SimpleFaceRecognizer) :
  (snd (load_and_train students self) = true ↔
   faces (training_set students) ≠ [] ∧
   ∃ model, train (recognizer self) (faces (training_set students))
              (labels (training_set students)) = Ok model) ∧
  (∀ model,
     faces (training_set students) ≠ [] →
     train (recognizer self) (faces (training_set students))
       (labels (training_set students)) = Ok model →
     load_and_train students self =
       (mkRecognizer model (Some (t_label_ids (training_set students))) (predicted self),
        true)) ∧
  (snd (load_and_train students self) = false →
   fst (load_and_train students self) = self).
Proof.
  destruct (training_set_numbering students) as (Hl & _ & _).
  assert (Hok : ∀ model,
     faces (training_set students) ≠ [] →
     train (recognizer self) (faces (training_set students))
       (labels (training_set students)) = Ok model →
     load_and_train students self =
       (mkRecognizer model (Some (t_label_ids (training_set students))) (predicted self),
        true)).
  { intros model Hne Ht. unfold load_and_train. rewrite Ht.
    destruct (faces (training_set students)) as [|f fs]; [done|].
    rewrite Hl. done. }
  split; [|split; [exact Hok|]].
  - split.
    + intros Htrue. destruct (load_and_train students self) as [self' b] eqn:Hlt.
      simpl in Htrue. subst b. pose proof Hlt as Hlt'.
      apply load_and_train_true in Hlt' as (Hne & _ & _). split; [done|].
      unfold load_and_train in Hlt.
      destruct (train (recognizer self) (faces (training_set students))
                  (labels (training_set students))) as [model|e]; [by exists model|].
      destruct (faces (training_set students)); [done|].
      by destruct (labels (training_set students)).
    + intros [Hne [model Ht]]. by rewrite (Hok model Hne Ht).
  - intros Hfalse. destruct (load_and_train students self) as [self' b] eqn:Hlt.
    simpl in *. subst b. by apply load_and_train_false in Hlt.
Qed.

(** ** face_utils.py: recognize_face, verify_face, detect_face *)

Section Recognizer_calls.
Context `{cv : CV}.
Implicit Types (students : list Student) (self : SimpleFaceRecognizer).

Lemma ensure_trained_trained students self m :
  label_ids self = Some m → ensure_trained students self = self.
Proof. unfold ensure_trained. by intros ->. Qed.

(** [recognize_face] leaves the recognizer it worked with, the call log
    apart. *)
Lemma recognize_face_log students image_path self :
  ∃ patches,
    snd (recognize_face students image_path self)
      = logged (ensure_trained students self) patches.
Proof.
  unfold recognize_face, ensure_trained.
  assert (Hrun : ∀ rec,
    ∃ patches,
      snd (match imread image_path with
           | None => (None, rec)
           | Some image =>
               match detectMultiScale image with
               | [] => (None, rec)
               | rect :: rects => recognize_loop image (rect :: rects) rec
               end
           end) = logged rec patches).
  { intros rec. destruct (imread image_path) as [image|];
      [|exists []; by rewrite logged_nil].
    destruct (detectMultiScale image) as [|rect rects];
      [exists []; by rewrite logged_nil|].
    destruct (recognize_loop_log image (rect :: rects) rec) as (patches & Hlog & _).
    by exists patches. }
  destruct (label_ids self) as [m|]; [apply Hrun|].
  destruct (load_and_train students self) as [self' [|]]; simpl; [apply Hrun|].
  exists []. by rewrite logged_nil.
Qed.

(** A student id returned by [recognize_face] comes from a detected face of
    the image, classified below the cut-off, whose label the map resolves. *)
Lemma recognize_face_Some students image_path self student_id :
  fst (recognize_face students image_path self) = Some student_id →
  ∃ image rect label confidence,
    imread image_path = Some image ∧ rect ∈ detectMultiScale image ∧
    predict (recognizer (ensure_trained students self)) (face_roi image rect)
      = Ok (label, confidence) ∧
    (confidence < THRESHOLD)%Q ∧
    label_ids (ensure_trained students self) ≫= (.!! label) = Some student_id.
Proof.
  unfold recognize_face, ensure_trained.
  assert (Hrun : ∀ rec,
    fst (match imread image_path with
         | None => (None, rec)
         | Some image =>
             match detectMultiScale image with
             | [] => (None, rec)
             | rect :: rects => recognize_loop image (rect :: rects) rec
             end
         end) = Some student_id →
    ∃ image rect label confidence,
      imread image_path = Some image ∧ rect ∈ detectMultiScale image ∧
      predict (recognizer rec) (face_roi image rect) = Ok (label, confidence) ∧
      (confidence < THRESHOLD)%Q ∧ label_ids rec ≫= (.!! label) = Some student_id).
  { intros rec. destruct (imread image_path) as [image|]; [|done].
    destruct (detectMultiScale image) as [|rect rects] eqn:Hd; [done|].
    intros (rect' & label & c & Hin & Hp & Hc & Hl)%recognize_loop_Some.
    exists image, rect', label, c. rewrite Hd. done. }
  destruct (label_ids self) as [m|]; [apply Hrun|].
  destruct (load_and_train students self) as [self' [|]]; simpl; [apply Hrun|done].
Qed.
End Recognizer_calls.

(** X3.  A recognizer that has a label map is never trained again:
    [recognize_face] gives the same answer whatever the [Student] table has
    become, and leaves the model and the label map as they were. *)
Theorem trained_recognizer_is_not_retrained `{cv : CV} (students students' : list Student)
    (image_path : string) (self : SimpleFaceRecognizer) (m : gmap Z string) :
  label_ids self = Some m →
  recognize_face students' image_path self = recognize_face students image_path self ∧
  recognizer (snd (recognize_face students image_path self)) = recognizer self ∧
  label_ids (snd (recognize_face students image_path self)) = Some m.
Proof.
  intros Hm. split.
  - unfold recognize_face. by rewrite Hm.
  - destruct (recognize_face_log students image_path self) as (patches & ->).
    rewrite (ensure_trained_trained students self m Hm). by simpl.
Qed.

Lemma trained_recognizer_is_not_retrained_witness :
  label_ids (fst (load_and_train (cv := toy_cv) toy_students init))
    = Some (t_label_ids (training_set (cv := toy_cv) toy_students)) ∧
  recognize_face (cv := toy_cv) [] "group.jpg"
      (fst (load_and_train (cv := toy_cv) toy_students init))
    = recognize_face (cv := toy_cv) toy_students "group.jpg"
        (fst (load_and_train (cv := toy_cv) toy_students init)).
Proof.
  split; [reflexivity|].
  exact (proj1 (trained_recognizer_is_not_retrained (cv := toy_cv) toy_students []
                  "group.jpg" (fst (load_and_train (cv := toy_cv) toy_students init))
                  (t_label_ids (training_set (cv := toy_cv) toy_students)) eq_refl)).
Defined.

(** X4.  [verify_face] answers [True] only when a detected face of the image,
    classified below the cut-off, has a label that the map of the recognizer
    resolves to the given student id; one image verifies at most one student
    id; a recognizer trained for the call from the table verifies only ids of
    active students; and without a training face the answer is [False], the
    recognizer untouched. *)
Theorem verify_face_sound `{cv : CV} (students : list Student) (image_path : string)
    (self : SimpleFaceRecognizer) :
  (∀ student_id,
     fst (verify_face students student_id image_path self) = true →
     ∃ image rect label confidence,
       imread image_path = Some image ∧ rect ∈ detectMultiScale image ∧
       predict (recognizer (ensure_trained students self)) (face_roi image rect)
         = Ok (label, confidence) ∧
       (confidence < THRESHOLD)%Q ∧
       label_ids (ensure_trained students self) ≫= (.!! label) = Some student_id) ∧
  (∀ id1 id2,
     fst (verify_face students id1 image_path self) = true →
     fst (verify_face students id2 image_path self) = true → id1 = id2) ∧
  (∀ student_id,
     label_ids self = None →
     fst (verify_face students student_id image_path self) = true →
     ∃ s, s ∈ students ∧ s_is_active s = true ∧ s_student_id s = student_id) ∧
  (∀ student_id,
     label_ids self = None → faces (training_set students) = [] →
     verify_face students student_id image_path self = (false, self)).
Proof.
  assert (Hver : ∀ student_id,
    fst (verify_face students student_id image_path self) = true →
    fst (recognize_face students image_path self) = Some student_id).
  { intros student_id. unfold verify_face.
    destruct (recognize_face students image_path self) as [r self']; simpl.
    by intros ?%bool_decide_eq_true. }
  split; [|split; [|split]].
  - intros student_id Hv. by apply recognize_face_Some, Hver.
  - intros id1 id2 H1%Hver H2%Hver. congruence.
  - intros student_id Hnone Hv.
    apply Hver, recognize_face_Some in Hv as (image & rect & label & c & _ & _ & _ & _ & Hl).
    unfold ensure_trained in Hl. rewrite Hnone in Hl.
    destruct (load_and_train students self) as [self' [|]] eqn:Hlt; simpl in Hl.
    + apply load_and_train_true in Hlt as (_ & Hids & _). rewrite Hids in Hl. simpl in Hl.
      exact (training_set_enrolled students label student_id Hl).
    + apply load_and_train_false in Hlt as ->. by rewrite Hnone in Hl.
  - intros student_id Hnone Hempty. unfold verify_face, recognize_face.
    rewrite Hnone, (load_and_train_untrainable students self Hempty). done.
Qed.

(** X5.  [detect_face] is [False] exactly for the photos on which the
    group-photo view stops before recognition ('Invalid image file!' or
    'No faces detected in the group photo!'); for those the view writes
    nothing and [recognize_face] returns [None].  Whenever [recognize_face]
    returns a student id, [detect_face] is [True] for the same file. *)
Theorem detect_face_gates_recognition `{cv : CV} (T : Q) (students : list Student)
    (coordinator : Student) (event : Event) (image_path : string)
    (self : SimpleFaceRecognizer) (table : list Attendance) :
  (detect_face image_path = false ↔
   snd (group_attendance_at T students coordinator event (imread image_path) table)
     = InvalidImageFile ∨
   snd (group_attendance_at T students coordinator event (imread image_path) table)
     = NoFacesDetected) ∧
  (detect_face image_path = false →
   fst (group_attendance_at T students coordinator event (imread image_path) table) = table ∧
   fst (recognize_face students image_path self) = None) ∧
  (∀ student_id,
     fst (recognize_face students image_path self) = Some student_id →
     detect_face image_path = true).
Proof.
  assert (Hsome : ∀ student_id,
     fst (recognize_face students image_path self) = Some student_id →
     detect_face image_path = true).
  { intros student_id (image & rect & _ & _ & Hread & Hin & _)%recognize_face_Some.
    unfold detect_face. rewrite Hread.
    destruct (detectMultiScale image); [by apply elem_of_nil in Hin | done]. }
  split; [|split; [|exact Hsome]].
  - unfold detect_face, group_attendance_at.
    destruct (imread image_path) as [image|]; [|split; [by left|done]].
    destruct (detectMultiScale image) as [|rect rects]; [split; [by right|done]|].
    split; [done|].
    destruct (fst (group_recognize T students image (rect :: rects))) as [rs|e];
      [|by intros [|]].
    by destruct (mark_recognized coordinator event rs 0 table) as [t' [m|e]]; intros [|].
  - intros Hfalse. split.
    + unfold detect_face in Hfalse. unfold group_attendance_at.
      destruct (imread image_path) as [image|]; [|done].
      by destruct (detectMultiScale image).
    + destruct (fst (recognize_face students image_path self)) as [sid|] eqn:E; [|done].
      rewrite (Hsome sid eq_refl) in Hfalse. done.
Qed.

(** ** views.py: what the two write paths report and leave *)

Section Counts.
Context `{cv : CV}.
Implicit Types (table new : list Attendance) (rs : list Student).

Lemma mark_recognized_count coordinator event rs n table :
  (length (fst (mark_recognized coordinator event rs n table))
     ≤ length table + length rs)%nat ∧
  ∀ m, snd (mark_recognized coordinator event rs n table) = Ok m →
       (n ≤ m)%nat ∧
       length (fst (mark_recognized coordinator event rs n table))
         = (length table + (m - n))%nat.
Proof.
  revert n table. induction rs as [|s rs IH]; intros n table; simpl.
  - split; [lia|]. intros m [= <-]. lia.
  - destruct (get_or_create_cases (s_id s) (e_id event) (auto_defaults coordinator) table)
      as [[_ E]|[(a & _ & E)|[_ E]]]; rewrite E; simpl.
    + destruct (IH (S n) (table ++ [new_row (s_id s) (e_id event) (auto_defaults coordinator)]))
        as [Hle Hok]. rewrite length_app in Hle, Hok. simpl in Hle, Hok.
      split; [lia|]. intros m Hm. destruct (Hok m Hm). lia.
    + destruct (IH n table) as [Hle Hok]. split; [lia|]. done.
    + split; [lia|]. done.
Qed.

Lemma mark_manual_count to_pk students admin event admin_notes ids n table :
  (length (fst (mark_manual to_pk students admin event admin_notes ids n table))
     ≤ length table + length ids)%nat ∧
  ∀ m, snd (mark_manual to_pk students admin event admin_notes ids n table) = Ok m →
       (n ≤ m)%nat ∧
       length (fst (mark_manual to_pk students admin event admin_notes ids n table))
         = (length table + (m - n))%nat.
Proof.
  revert n table. induction ids as [|sid ids IH]; intros n table; simpl.
  - split; [lia|]. intros m [= <-]. lia.
  - destruct (to_pk sid) as [pk|]; [|simpl; split; [lia|done]].
    destruct (objects_get (active_with_pk pk) students) as [s|[]]; simpl;
      try (split; [lia|done]).
    + destruct (get_or_create_cases (s_id s) (e_id event)
                  (manual_defaults admin admin_notes) table)
        as [[_ E]|[(a & _ & E)|[_ E]]]; rewrite E; simpl.
      * destruct (IH (S n) (table ++ [new_row (s_id s) (e_id event)
                                        (manual_defaults admin admin_notes)]))
          as [Hle Hok]. rewrite length_app in Hle, Hok. simpl in Hle, Hok.
        split; [lia|]. intros m Hm. destruct (Hok m Hm). lia.
      * destruct (IH n table) as [Hle Hok]. split; [lia|]. done.
      * split; [lia|]. done.
    + destruct (IH n table) as [Hle Hok]. split; [lia|]. done.
Qed.

Lemma matching_policy_length T students ids results accepted :
  matching_policy T students ids results = Ok accepted →
  (length accepted ≤ length results)%nat.
Proof.
  revert accepted. induction results as [|r results IH]; simpl.
  - by intros accepted [= <-].
  - intros accepted. destruct (accept T students ids r) as [o|]; [|done].
    destruct (matching_policy T students ids results) as [l|]; [|done].
    intros [= <-]. specialize (IH l eq_refl). rewrite length_app.
    destruct o; simpl; lia.
Qed.

Lemma group_recognize_length T students image rects rs :
  fst (group_recognize T students image rects) = Ok rs →
  (length rs ≤ length rects)%nat.
Proof.
  unfold group_recognize.
  destruct (recognize_each T students image rects [] (fst (load_and_train students init)))
    as [res rec'] eqn:Hloop. simpl. intros ->.
  apply recognize_each_Ok in Hloop as (results & accepted & Hcl & Hp & -> & _).
  simpl. apply matching_policy_length in Hp.
  unfold classified in Hcl. apply Forall2_length in Hcl. lia.
Qed.

(** When training failed, no face is accepted. *)
Lemma recognized_of_untrained T students group_photo :
  snd (load_and_train students init) = false →
  recognized_of T students group_photo = [].
Proof.
  intros Hfalse. destruct (recognized_of T students group_photo) as [|s l] eqn:E; [done|].
  assert (Hs : s ∈ recognized_of T students group_photo) by (rewrite E; by left).
  apply recognized_of_accepted in Hs as (image & rect & label & c & _ & _ & _ & Hacc).
  destruct (load_and_train students init) as [self' b] eqn:Hlt. simpl in Hfalse. subst b.
  apply load_and_train_false in Hlt as ->. simpl in Hacc. by destruct (Qltb c T).
Qed.
End Counts.

(** X6.  When a group-photo submission completes, the three numbers of its
    summary are consistent: attendance marked <= students recognized <=
    faces detected, at least one face was detected, and the table has grown
    by exactly the number of attendances marked. *)
Theorem group_summary_counts `{cv : CV} (T : Q) (students : list Student)
    (coordinator : Student) (event : Event) (group_photo : option Image)
    (table table' : list Attendance) (detected recognized marked : nat) :
  group_attendance_at T students coordinator event group_photo table
    = (table', GroupCompleted detected recognized marked) →
  (marked ≤ recognized ≤ detected)%nat ∧ (0 < detected)%nat ∧
  length table' = (length table + marked)%nat ∧
  recognized = length (recognized_of T students group_photo) ∧
  ∃ image, group_photo = Some image ∧ detected = length (detectMultiScale image).
Proof.
  unfold group_attendance_at, recognized_of.
  destruct group_photo as [image|]; [|done].
  destruct (detectMultiScale image) as [|rect rects] eqn:Hd; [done|].
  destruct (fst (group_recognize T students image (rect :: rects))) as [rs|e] eqn:Hrec;
    [|done].
  pose proof (group_recognize_length T students image (rect :: rects) rs Hrec) as Hlen.
  destruct (mark_recognized_count coordinator event rs 0 table) as [Hle Hok].
  destruct (mark_recognized coordinator event rs 0 table) as [t' [m|e]] eqn:Hmark; [|done].
  simpl in *. intros [= <- <- <- <-]. destruct (Hok m eq_refl) as [_ Hgrow].
  split; [lia|]. split; [lia|]. split; [lia|]. split; [done|].
  exists image. by rewrite Hd.
Qed.

Lemma group_summary_counts_witness :
  group_attendance_at (cv := toy_cv) THRESHOLD toy_students bob toy_event
      (@imread toy_cv "twice.jpg") []
    = ([new_row 1 1 (auto_defaults bob)], GroupCompleted 2 2 1) ∧
  (1 ≤ 2 ≤ 2)%nat.
Proof.
  split; [reflexivity|].
  exact (proj1 (group_summary_counts (cv := toy_cv) THRESHOLD toy_students bob toy_event
                  (@imread toy_cv "twice.jpg") [] [new_row 1 1 (auto_defaults bob)]
                  2 2 1 eq_refl)).
Defined.

(** X7.  When training fails (no training face, or [train] raised), the
    group-photo view accepts nobody and writes nothing: it ends either with
    an error message or with a summary of zero recognized students and zero
    attendances. *)
Theorem group_attendance_without_model `{cv : CV} (T : Q) (students : list Student)
    (coordinator : Student) (event : Event) (group_photo : option Image)
    (table : list Attendance) :
  snd (load_and_train students init) = false →
  fst (group_attendance_at T students coordinator event group_photo table) = table ∧
  ∀ detected recognized marked,
    snd (group_attendance_at T students coordinator event group_photo table)
      = GroupCompleted detected recognized marked →
    recognized = 0%nat ∧ marked = 0%nat.
Proof.
  intros Hfalse. pose proof (recognized_of_untrained T students group_photo Hfalse) as Hnone.
  split.
  - rewrite group_attendance_at_table, Hnone. done.
  - intros d r n Hout.
    destruct (group_attendance_at T students coordinator event group_photo table)
      as [t' o] eqn:Hrun. simpl in Hout. subst o.
    apply group_summary_counts in Hrun as (Hle & _ & _ & Hr & _).
    rewrite Hnone in Hr. simpl in Hr. lia.
Qed.

Lemma group_attendance_without_model_witness :
  snd (load_and_train (cv := toy_cv) [carol; dave] init) = false ∧
  group_attendance_at (cv := toy_cv) THRESHOLD [carol; dave] bob toy_event
      (@imread toy_cv "group.jpg") []
    = ([], ErrorInGroupAttendance CvError) ∧
  fst (group_attendance_at (cv := toy_cv) THRESHOLD [carol; dave] bob toy_event
         (@imread toy_cv "group.jpg") []) = [].
Proof.
  split; [reflexivity|]. split; [reflexivity|].
  exact (proj1 (group_attendance_without_model (cv := toy_cv) THRESHOLD [carol; dave] bob
                  toy_event (@imread toy_cv "group.jpg") [] eq_refl)).
Defined.

Section Manual_again.
Implicit Types (table new : list Attendance).

Lemma settled_app to_pk students event table new student_id :
  settled to_pk students event table student_id →
  settled to_pk students event (table ++ new) student_id.
Proof.
  intros (pk & Hpk & [Hnone|(s & Hs & Hrow)]); exists pk; (split; [done|]); [by left|].
  right. exists s. split; [done|]. by apply filter_app_ne.
Qed.

(** After a manual loop that completed, every submitted id is settled. *)
Lemma mark_manual_settles to_pk students admin event admin_notes ids n table m :
  snd (mark_manual to_pk students admin event admin_notes ids n table) = Ok m →
  Forall (settled to_pk students event
            (fst (mark_manual to_pk students admin event admin_notes ids n table))) ids.
Proof.
  revert n table. induction ids as [|sid ids IH]; intros n table; simpl; [by constructor|].
  destruct (to_pk sid) as [pk|] eqn:Hpk; [|done].
  destruct (objects_get (active_with_pk pk) students) as [s|[]] eqn:Hget; try done.
  - destruct (get_or_create_cases (s_id s) (e_id event)
                (manual_defaults admin admin_notes) table)
      as [[Hf E]|[(a & Hf & E)|[Hf E]]]; rewrite E; [| |done].
    + intros Hm. constructor; [|by apply IH].
      destruct (mark_manual_rows to_pk students admin event admin_notes ids (S n)
                  (table ++ [new_row (s_id s) (e_id event)
                               (manual_defaults admin admin_notes)]))
        as (new & -> & _).
      exists pk. split; [done|]. right. exists s. split; [done|].
      apply filter_app_ne. rewrite filter_app, filter_cons_True by (by apply for_pair_new_row).
      intros Heq. by apply app_eq_nil in Heq as [_ ?].
    + intros Hm. constructor; [|by apply IH].
      destruct (mark_manual_rows to_pk students admin event admin_notes ids n table)
        as (new & -> & _).
      exists pk. split; [done|]. right. exists s. split; [done|].
      apply filter_app_ne. by rewrite Hf.
  - intros Hm. constructor; [|by apply IH]. exists pk. split; [done|]. by left.
Qed.

(** On settled ids the manual loop writes nothing and counts nothing. *)
Lemma mark_manual_again to_pk students admin event admin_notes ids n table :
  unique_pairs table →
  Forall (settled to_pk students event table) ids →
  mark_manual to_pk students admin event admin_notes ids n table = (table, Ok n).
Proof.
  intros Huniq. induction ids as [|sid ids IH]; intros Hall; simpl; [done|].
  apply Forall_cons in Hall as [(pk & Hpk & Hcase) Hall]. rewrite Hpk.
  destruct Hcase as [-> | (s & -> & Hrow)]; [by apply IH|].
  destruct (get_or_create_cases (s_id s) (e_id event)
              (manual_defaults admin admin_notes) table)
    as [[Hf E]|[(a & Hf & E)|[Hf E]]]; rewrite E.
  - done.
  - by apply IH.
  - specialize (Huniq (s_id s) (e_id event)). lia.
Qed.
End Manual_again.

(** X8.  A manual submission without student ids is refused and writes
    nothing.  One that completes reports a count that is at most the number
    of submitted ids and is exactly the number of rows added to the table. *)
Theorem manual_summary_counts (to_pk : string → option Z) (students : list Student)
    (admin : Student) (event : Event) (student_ids : list string) (admin_notes : string)
    (table : list Attendance) :
  (student_ids = [] ↔
   snd (manual_attendance to_pk students admin event student_ids admin_notes table)
     = SelectEventAndStudent) ∧
  (student_ids = [] →
   fst (manual_attendance to_pk students admin event student_ids admin_notes table) = table) ∧
  (∀ marked,
     snd (manual_attendance to_pk students admin event student_ids admin_notes table)
       = ManualCompleted marked →
     (marked ≤ length student_ids)%nat ∧
     length (fst (manual_attendance to_pk students admin event student_ids admin_notes table))
       = (length table + marked)%nat).
Proof.
  unfold manual_attendance. destruct student_ids as [|sid ids]; [done|].
  destruct (mark_manual_count to_pk students admin event admin_notes (sid :: ids) 0 table)
    as [Hle Hok].
  destruct (mark_manual to_pk students admin event admin_notes (sid :: ids) 0 table)
    as [t' [m|e]]; simpl in *.
  - split; [done|]. split; [done|]. intros marked [= <-].
    destruct (Hok m eq_refl) as [_ Hgrow]. lia.
  - split; [done|]. split; [done|]. done.
Qed.

(** X9.  On a table with at most one row per pair, a manual submission that
    completed and is submitted again, with the same [Student] table, writes
    nothing and reports zero attendances. *)
Theorem manual_resubmission_is_noop (to_pk : string → option Z) (students : list Student)
    (admin : Student) (event : Event) (student_ids : list string) (admin_notes : string)
    (table table1 : list Attendance) (marked : nat) :
  unique_pairs table →
  manual_attendance to_pk students admin event student_ids admin_notes table
    = (table1, ManualCompleted marked) →
  manual_attendance to_pk students admin event student_ids admin_notes table1
    = (table1, ManualCompleted 0).
Proof.
  intros Huniq. unfold manual_attendance. destruct student_ids as [|sid ids]; [done|].
  destruct (mark_manual_rows to_pk students admin event admin_notes (sid :: ids) 0 table)
    as (new & Htab & Hfresh & _).
  pose proof (mark_manual_settles to_pk students admin event admin_notes (sid :: ids) 0 table)
    as Hsettled.
  destruct (mark_manual to_pk students admin event admin_notes (sid :: ids) 0 table)
    as [t' [m|e]] eqn:Hrun; [|done].
  simpl in Htab, Hsettled. intros [= <- <-].
  rewrite (mark_manual_again to_pk students admin event admin_notes (sid :: ids) 0 t');
    [done| |by apply (Hsettled m)].
  rewrite Htab. by apply fresh_rows_unique.
Qed.

Lemma manual_resubmission_is_noop_witness :
  unique_pairs [] ∧
  manual_attendance toy_to_pk toy_students alice toy_event ["3"; "4"; "9"] "late" []
    = ([new_row 3 1 (manual_defaults alice "late")], ManualCompleted 1) ∧
  manual_attendance toy_to_pk toy_students alice toy_event ["3"; "4"; "9"] "late"
      [new_row 3 1 (manual_defaults alice "late")]
    = ([new_row 3 1 (manual_defaults alice "late")], ManualCompleted 0).
Proof.
  assert (Huniq : unique_pairs []) by (intros student event; simpl; lia).
  split; [exact Huniq|]. split; [reflexivity|].
  exact (manual_resubmission_is_noop toy_to_pk toy_students alice toy_event
           ["3"; "4"; "9"] "late" [] [new_row 3 1 (manual_defaults alice "late")] 1
           Huniq eq_refl).
Defined.

Section First_write.
Context `{cv : CV}.

Lemma fresh_rows_app (table new1 new2 : list Attendance) :
  fresh_rows table new1 → fresh_rows (table ++ new1) new2 →
  fresh_rows table (new1 ++ new2).
Proof.
  intros H1 H2 st ev. destruct (H1 st ev) as [Hle1 Hold1].
  destruct (H2 st ev) as [Hle2 Hold2]. rewrite filter_app in Hold2.
  rewrite filter_app, length_app. split.
  - destruct (filter (for_pair st ev) new1) as [|a l] eqn:E; [simpl; lia|].
    rewrite Hold2; [simpl in *; lia|].
    intros Heq; apply app_eq_nil in Heq as [_ ?]; done.
  - intros Hne. rewrite Hold1 by done. simpl. apply Hold2.
    intros Heq; apply app_eq_nil in Heq as [? _]; done.
Qed.

(** A sequence of submissions appends rows for pairs that had none. *)
Lemma submit_all_rows to_pk (subs : list submission) (table : list Attendance) :
  ∃ new, submit_all to_pk subs table = table ++ new ∧ fresh_rows table new.
Proof.
  unfold submit_all. revert table. induction subs as [|sub subs IH]; intros table; simpl.
  - exists []. rewrite app_nil_r. split; [done | apply fresh_rows_nil].
  - destruct (submit_rows to_pk sub table) as (new1 & Htab & Hfresh1).
    destruct (IH (submit to_pk sub table)) as (new2 & Hall & Hfresh2).
    exists (new1 ++ new2). rewrite Hall, Htab, <- app_assoc. split; [done|].
    apply fresh_rows_app; [done|]. by rewrite <- Htab.
Qed.
End First_write.

(** X10.  The first write wins: once a (student, event) pair has its row, no
    later group-photo or manual submission changes that row or adds another
    for the pair; whoever marked first stays [marked_by], and [is_manual] and
    [notes] stay as first written. *)
Theorem first_write_wins `{cv : CV} (to_pk : string → option Z) (subs : list submission)
    (table : list Attendance) (a a' : Attendance) :
  unique_pairs table →
  a ∈ table →
  a' ∈ submit_all to_pk subs table →
  a_student a' = a_student a → a_event a' = a_event a →
  a' = a.
Proof.
  intros Huniq Hin Hin' Hst Hev.
  destruct (submit_all_rows to_pk subs table) as (new & Hall & Hfresh).
  rewrite Hall in Hin'.
  pose proof (fresh_rows_unique table new Huniq Hfresh (a_student a) (a_event a)) as Hle.
  assert (H1 : a ∈ filter (for_pair (a_student a) (a_event a)) (table ++ new)).
  { apply list_elem_of_filter. split; [done|]. apply elem_of_app. by left. }
  assert (H2 : a' ∈ filter (for_pair (a_student a) (a_event a)) (table ++ new)).
  { apply list_elem_of_filter. split; [done|]. done. }
  destruct (filter (for_pair (a_student a) (a_event a)) (table ++ new)) as [|x [|y l]];
    simpl in Hle; [by apply elem_of_nil in H1| |lia].
  apply list_elem_of_singleton in H1, H2. congruence.
Qed.

Lemma first_write_wins_witness :
  unique_pairs [new_row 3 1 (auto_defaults bob)] ∧
  new_row 3 1 (auto_defaults bob) ∈ [new_row 3 1 (auto_defaults bob)] ∧
  new_row 3 1 (auto_defaults bob)
    ∈ submit_all toy_to_pk toy_submissions [new_row 3 1 (auto_defaults bob)] ∧
  mkAttendance 3 1 2 false None = new_row 3 1 (auto_defaults bob).
Proof.
  assert (Huniq : unique_pairs [new_row 3 1 (auto_defaults bob)]).
  { intros student event. rewrite filter_cons, filter_nil.
    destruct (decide _); simpl; lia. }
  assert (Hin : new_row 3 1 (auto_defaults bob) ∈ [new_row 3 1 (auto_defaults bob)])
    by (by left).
  assert (Hin' : new_row 3 1 (auto_defaults bob)
                   ∈ submit_all toy_to_pk toy_submissions [new_row 3 1 (auto_defaults bob)])
    by (by left).
  split; [exact Huniq|]. split; [exact Hin|]. split; [exact Hin'|].
  exact (first_write_wins (cv := toy_cv) toy_to_pk toy_submissions
           [new_row 3 1 (auto_defaults bob)] (new_row 3 1 (auto_defaults bob))
           (mkAttendance 3 1 2 false None) Huniq Hin Hin' eq_refl eq_refl).
Defined.

(** ** views.py: access tests *)

(** X11.  A user whose student has the role 'admin' passes the test of every
    guarded view, and a coordinator has a student.  The second [is_admin] also
    admits superusers, so a user can pass the test of [manual_attendance] and
    fail that of [group_attendance]; such a user is a superuser. *)
Theorem access_tests_by_role (user : User) :
  (is_admin_first user = true → ∀ v, access_test v user = true) ∧
  is_admin user = u_is_superuser user || is_admin_first user ∧
  (is_coordinator user = true → is_student user = true) ∧
  (access_test ManualAttendance user = true →
   access_test GroupAttendance user = false → u_is_superuser user = true) ∧
  (∃ superuser,
     access_test ManualAttendance superuser = true ∧
     access_test GroupAttendance superuser = false).
Proof.
  split; [|split; [|split; [|split]]].
  - unfold is_admin_first. intros Hadmin v.
    destruct v; simpl; unfold is_admin, is_admin_first, is_coordinator;
      destruct (u_student user) as [p|]; try done.
    all: try (rewrite Hadmin; by destruct (u_is_superuser user)).
    all: apply bool_decide_eq_true in Hadmin; apply bool_decide_eq_true;
         rewrite Hadmin; by left.
  - done.
  - unfold is_coordinator, is_student. by destruct (u_student user).
  - simpl. unfold is_admin, is_coordinator.
    destruct (u_is_superuser user); [done|]. simpl.
    destruct (u_student user) as [p|]; [|done].
    intros Hadmin%bool_decide_eq_true Hnot%bool_decide_eq_false.
    exfalso. apply Hnot. rewrite Hadmin. by left.
  - exists (mkUser 1 "root" true true (Some (mkProfile carol "student" "approved"))).
    done.
Qed.

(** ** views.py: attendance_records *)

Section Records.
Implicit Types (table records : list Attendance).

Lemma manual_partition records :
  (face_recognition_count records + manual_count records)%nat = length records.
Proof.
  unfold face_recognition_count, manual_count.
  induction records as [|a records IH]; [done|].
  rewrite !filter_cons. destruct (a_is_manual a) eqn:E.
  - rewrite decide_False by done. rewrite decide_True by done. simpl. lia.
  - rewrite decide_True by done. rewrite decide_False by done. simpl. lia.
Qed.

Lemma unique_pairs_tail a table : unique_pairs (a :: table) → unique_pairs table.
Proof.
  intros Huniq st ev. specialize (Huniq st ev). rewrite filter_cons in Huniq.
  destruct (decide (for_pair st ev a)); simpl in Huniq; lia.
Qed.

(** With at most one row per pair, the rows of one student name each event
    once. *)
Lemma unique_pairs_events table student :
  unique_pairs table →
  NoDup (a_event <$> filter (λ a, a_student a = student) table).
Proof.
  induction table as [|a table IH]; intros Huniq; [constructor|].
  specialize (IH (unique_pairs_tail a table Huniq)). rewrite filter_cons.
  destruct (decide (a_student a = student)) as [Hst|]; [|done].
  rewrite fmap_cons. constructor; [|done].
  intros Hin. apply list_elem_of_fmap in Hin as (a' & Hev & Hin').
  apply list_elem_of_filter in Hin' as [Hst' Hin'].
  specialize (Huniq student (a_event a)). rewrite filter_cons_True in Huniq by done.
  assert (Ha' : a' ∈ filter (for_pair student (a_event a)) table)
    by (by apply list_elem_of_filter).
  destruct (filter (for_pair student (a_event a)) table); [by apply elem_of_nil in Ha'|].
  simpl in Huniq. lia.
Qed.
End Records.

(** X12.  In [attendance_records] the two statistics add up to the number of
    rows shown.  An admin is shown the whole table; a coordinator the rows of
    the events they coordinate; anybody else their own rows only, which name
    each event at most once when the table has one row per pair. *)
Theorem attendance_records_by_role (viewer : Profile) (events : list EventRow)
    (table : list Attendance) :
  (face_recognition_count (visible_records viewer events table)
   + manual_count (visible_records viewer events table))%nat
    = length (visible_records viewer events table) ∧
  (p_role viewer = "admin" → visible_records viewer events table = table) ∧
  (p_role viewer = "coordinator" →
   ∀ a, a ∈ visible_records viewer events table ↔
        a ∈ table ∧
        ∃ e, e ∈ events ∧ er_coordinator e = s_id (p_student viewer) ∧
             e_id (er_event e) = a_event a) ∧
  (p_role viewer ≠ "admin" → p_role viewer ≠ "coordinator" →
   (∀ a, a ∈ visible_records viewer events table ↔
         a ∈ table ∧ a_student a = s_id (p_student viewer)) ∧
   (unique_pairs table → NoDup (a_event <$> visible_records viewer events table))).
Proof.
  split; [apply manual_partition|]. unfold visible_records. split; [|split].
  - intros ->. done.
  - intros ->. simpl. intros a. rewrite list_elem_of_filter, list_elem_of_fmap. split.
    + intros [(e & Hev & He) Hin]. apply list_elem_of_filter in He as [Hco He].
      split; [done|]. by exists e.
    + intros [Hin (e & He & Hco & Hev)]. split; [|done]. exists e. split; [done|].
      by apply list_elem_of_filter.
  - intros Hna Hnc. rewrite bool_decide_eq_false_2 by done.
    rewrite bool_decide_eq_false_2 by done. split.
    + intros a. rewrite list_elem_of_filter. tauto.
    + apply unique_pairs_events.
Qed.

(** X13.  For an admin, [attendance_records] follows the write paths: a
    completed group-photo submission raises the face-recognition count by the
    number of attendances it reports and leaves the manual count, a completed
    manual submission raises the manual count by the number it reports and
    leaves the face-recognition count. *)
Theorem records_follow_submissions `{cv : CV} (T : Q) (to_pk : string → option Z)
    (viewer : Profile) (events : list EventRow) (students : list Student)
    (actor : Student) (event : Event) (group_photo : option Image)
    (student_ids : list string) (admin_notes : string) (table : list Attendance) :
  p_role viewer = "admin" →
  (∀ table' detected recognized marked,
     group_attendance_at T students actor event group_photo table
       = (table', GroupCompleted detected recognized marked) →
     face_recognition_count (visible_records viewer events table')
       = (face_recognition_count (visible_records viewer events table) + marked)%nat ∧
     manual_count (visible_records viewer events table')
       = manual_count (visible_records viewer events table)) ∧
  (∀ table' marked,
     manual_attendance to_pk students actor event student_ids admin_notes table
       = (table', ManualCompleted marked) →
     manual_count (visible_records viewer events table')
       = (manual_count (visible_records viewer events table) + marked)%nat ∧
     face_recognition_count (visible_records viewer events table')
       = face_recognition_count (visible_records viewer events table)).
Proof.
  intros Hadmin. unfold visible_records. rewrite Hadmin. simpl.
  unfold face_recognition_count, manual_count. split.
  - intros table' d r n Hrun.
    destruct (group_attendance_at_rows T students actor event group_photo table)
      as (new & Htab & _ & Hrows).
    pose proof (group_summary_counts T students actor event group_photo table table'
                  d r n Hrun) as (_ & _ & Hlen & _).
    rewrite Hrun in Htab. simpl in Htab. subst table'.
    rewrite length_app in Hlen. rewrite !filter_app, !length_app.
    assert (Hall : Forall (λ a, a_is_manual a = false) new).
    { eapply Forall_impl; [exact Hrows|]. by intros a (s & _ & ->). }
    clear Hrows. assert (length new = n) as <- by lia. clear Hlen Hrun.
    induction Hall as [|a new Ha Hall IH]; [simpl; lia|].
    rewrite !filter_cons. rewrite decide_True by done.
    rewrite decide_False by (by rewrite Ha). simpl. lia.
  - intros table' n Hrun.
    destruct (manual_attendance_rows to_pk students actor event student_ids admin_notes table)
      as (new & Htab & _ & Hrows).
    destruct (manual_summary_counts to_pk students actor event student_ids admin_notes table)
      as (_ & _ & Hcount).
    rewrite Hrun in Htab, Hcount. simpl in Htab, Hcount. subst table'.
    destruct (Hcount n eq_refl) as [_ Hlen].
    rewrite length_app in Hlen. rewrite !filter_app, !length_app.
    assert (Hall : Forall (λ a, a_is_manual a = true) new).
    { eapply Forall_impl; [exact Hrows|]. by intros a (s & sid & _ & _ & _ & _ & ->). }
    clear Hrows. assert (length new = n) as <- by lia. clear Hlen Hrun Hcount.
    induction Hall as [|a new Ha Hall IH]; [simpl; lia|].
    rewrite !filter_cons. rewrite decide_True by done.
    rewrite decide_False by (by rewrite Ha). simpl. lia.
Qed.

Lemma records_follow_submissions_witness :
  p_role (mkProfile alice "admin" "approved") = "admin" ∧
  face_recognition_count
    (visible_records (mkProfile alice "admin" "approved") []
       [new_row 1 1 (auto_defaults bob)])
    = (face_recognition_count (visible_records (mkProfile alice "admin" "approved") [] [])
       + 1)%nat.
Proof.
  split; [reflexivity|].
  exact (proj1 (proj1 (records_follow_submissions (cv := toy_cv) THRESHOLD toy_to_pk
           (mkProfile alice "admin" "approved") [] toy_students bob toy_event
           (@imread toy_cv "twice.jpg") [] "" [] eq_refl)
           [new_row 1 1 (auto_defaults bob)] 2%nat 2%nat 1%nat eq_refl)).
Defined.

(** ** views.py: notifications *)

Section Notifications.
Implicit Types (table : list Notification) (user : Z).

Lemma mark_read_user user n : n_user (mark_read user n) = n_user n.
Proof. unfold mark_read. by destruct (decide _). Qed.

Lemma mark_read_not_unread user n : ¬ unread_of user (mark_read user n).
Proof.
  unfold mark_read. destruct (decide (unread_of user n)) as [Hu|Hn]; [|done].
  by intros [_ ?].
Qed.

Lemma mark_read_other user other n : other ≠ user → n_user n = other → mark_read user n = n.
Proof.
  intros Hne Hn. unfold mark_read. rewrite decide_False; [done|]. intros [? _]. congruence.
Qed.

Lemma filter_fmap_mark_read (P : Notification → Prop) `{HP : ∀ n, Decision (P n)} user table :
  (∀ n, P (mark_read user n) ↔ P n) →
  filter P (mark_read user <$> table) = mark_read user <$> filter P table.
Proof.
  intros HPm. induction table as [|n table IH]; [done|].
  rewrite fmap_cons, !filter_cons.
  destruct (decide (P n)) as [Hp|Hp].
  - rewrite decide_True by (by apply HPm). by rewrite fmap_cons, IH.
  - rewrite decide_False by (by rewrite HPm). done.
Qed.

Lemma fmap_mark_read_other user other table :
  other ≠ user →
  filter (λ n, n_user n = other) (mark_read user <$> table)
    = filter (λ n, n_user n = other) table.
Proof.
  intros Hne. induction table as [|n table IH]; [done|].
  rewrite fmap_cons, !filter_cons, mark_read_user.
  destruct (decide (n_user n = other)) as [Hn|Hn]; [|done].
  by rewrite IH, (mark_read_other user other n).
Qed.

Lemma filter_unread_other user other table :
  other ≠ user →
  filter (unread_of other) (mark_read user <$> table) = filter (unread_of other) table.
Proof.
  intros Hne. induction table as [|n table IH]; [done|].
  rewrite fmap_cons, !filter_cons.
  destruct (decide (n_user n = other)) as [Hn|Hn].
  - rewrite (mark_read_other user other n) by done. by rewrite IH.
  - rewrite decide_False by (intros [? _]; by rewrite mark_read_user in *).
    rewrite decide_False by (by intros [? _]). done.
Qed.
End Notifications.

(** X14.  After [notifications_mark_read] the user's feed reports zero unread
    notifications and shows the same rows as before, each read; the feed of
    any other user is unchanged; no row is added or removed; marking twice is
    marking once. *)
Theorem mark_read_clears_unread (user other : Z) (table : list Notification) :
  snd (notifications_feed user (notifications_mark_read user table)) = 0%nat ∧
  fst (notifications_feed user (notifications_mark_read user table))
    = mark_read user <$> fst (notifications_feed user table) ∧
  Forall (λ n, n_is_read n = true)
    (fst (notifications_feed user (notifications_mark_read user table))) ∧
  (other ≠ user →
   notifications_feed other (notifications_mark_read user table)
     = notifications_feed other table) ∧
  length (notifications_mark_read user table) = length table ∧
  notifications_mark_read user (notifications_mark_read user table)
    = notifications_mark_read user table.
Proof.
  unfold notifications_feed, notifications_mark_read. simpl.
  assert (Hitems : take 10 (reverse (filter (λ n, n_user n = user) (mark_read user <$> table)))
                   = mark_read user <$> take 10 (reverse (filter (λ n, n_user n = user) table))).
  { rewrite (filter_fmap_mark_read (λ n, n_user n = user)) by (intros n; by rewrite mark_read_user).
    by rewrite <- fmap_reverse, fmap_take. }
  split; [|split; [|split; [|split; [|split]]]].
  - clear Hitems. induction table as [|n table IH]; [done|].
    rewrite fmap_cons, filter_cons_False by apply mark_read_not_unread. exact IH.
  - exact Hitems.
  - rewrite Hitems. apply Forall_fmap, Forall_forall. intros n Hn. simpl.
    apply subseteq_take, elem_of_reverse, list_elem_of_filter in Hn as [Hu _].
    unfold mark_read. destruct (decide (unread_of user n)) as [_|Hnot]; [done|].
    destruct (n_is_read n) eqn:E; [done|]. exfalso. by apply Hnot.
  - intros Hne. by rewrite fmap_mark_read_other, filter_unread_other.
  - by rewrite length_fmap.
  - rewrite <- list_fmap_compose. apply list_fmap_ext. intros _ n _. simpl.
    unfold mark_read at 1. rewrite decide_False by apply mark_read_not_unread. done.
Qed.

(** X15.  A notification sent with [notify] is the first item of the
    receiver's next feed, unread, and raises the unread count by one; the feed
    never shows more than ten items while the count covers all unread rows;
    other users' feeds are unchanged. *)
Theorem notify_reaches_feed (user other : Z) (title body url approve_url reject_url : string)
    (table : list Notification) :
  head (fst (notifications_feed user
               (notify user title body url approve_url reject_url table)))
    = Some (mkNotification user title body url approve_url reject_url false) ∧
  snd (notifications_feed user (notify user title body url approve_url reject_url table))
    = S (snd (notifications_feed user table)) ∧
  length (fst (notifications_feed user table))
    = (10 `min` length (filter (λ n, n_user n = user) table))%nat ∧
  (snd (notifications_feed user table)
     ≤ length (filter (λ n, n_user n = user) table))%nat ∧
  (other ≠ user →
   notifications_feed other (notify user title body url approve_url reject_url table)
     = notifications_feed other table).
Proof.
  unfold notifications_feed, notify. simpl.
  split; [|split; [|split; [|split]]].
  - rewrite filter_app, filter_cons_True by done. rewrite filter_nil, reverse_snoc. done.
  - rewrite filter_app, filter_cons_True by done. rewrite filter_nil, length_app. simpl. lia.
  - rewrite length_take, length_reverse. done.
  - induction table as [|n table IH]; [done|]. rewrite !filter_cons.
    destruct (decide (unread_of user n)) as [[Hu _]|_].
    + rewrite decide_True by done. simpl. lia.
    + destruct (decide (n_user n = user)); simpl; lia.
  - intros Hne. rewrite !filter_app.
    rewrite (filter_cons_False (λ n, n_user n = other)) by (simpl; congruence).
    rewrite (filter_cons_False (unread_of other)) by (intros [? _]; simpl in *; congruence).
    by rewrite !filter_nil, !app_nil_r.
Qed.

(** ** views.py: approval of accounts and login *)

Section Accounts.
Implicit Types (users : list User) (notifications : list Notification).

(** A unique column selects exactly the row that carries the key. *)
Lemma filter_unique_key {A K} `{EqDecision K} (key : A → K) (l : list A) (x : A) :
  NoDup (key <$> l) → x ∈ l → filter (λ y, key y = key x) l = [x].
Proof.
  induction l as [|y l IH]; intros Hnd Hin; [by apply elem_of_nil in Hin|].
  rewrite fmap_cons in Hnd. apply NoDup_cons in Hnd as [Hnotin Hnd].
  rewrite filter_cons. apply elem_of_cons in Hin as [->|Hin].
  - rewrite decide_True by done. f_equal.
    destruct (filter (λ y0, key y0 = key y) l) as [|z l'] eqn:E; [done|].
    exfalso. assert (Hz : z ∈ filter (λ y0, key y0 = key y) l) by (rewrite E; by left).
    apply list_elem_of_filter in Hz as [Hk Hz]. apply Hnotin. rewrite <- Hk.
    by apply list_elem_of_fmap_2.
  - rewrite decide_False; [by apply IH|].
    intros Hk. apply Hnotin. rewrite Hk. by apply list_elem_of_fmap_2.
Qed.

Lemma set_approval_username status active target u :
  u_username (set_approval status active target u) = u_username u.
Proof. unfold set_approval. by destruct (decide _). Qed.

Lemma set_approval_student status active target u :
  p_student <$> u_student (set_approval status active target u)
    = p_student <$> u_student u.
Proof.
  unfold set_approval. destruct (decide _); [|done]. simpl. by destruct (u_student u).
Qed.

Lemma set_approval_target status active target :
  u_is_active (set_approval status active target target) = active ∧
  p_approval_status <$> u_student (set_approval status active target target)
    = (λ _, status) <$> u_student target.
Proof.
  unfold set_approval. rewrite decide_True by done. simpl. split; [done|].
  by destruct (u_student target).
Qed.

Lemma students_of_set_approval status active target users :
  students_of (set_approval status active target <$> users) = students_of users.
Proof.
  unfold students_of. induction users as [|u users IH]; [done|].
  rewrite fmap_cons. csimpl. by rewrite set_approval_student, IH.
Qed.

Lemma filter_username_set_approval status active target name users :
  filter (λ u, u_username u = name) (set_approval status active target <$> users)
    = set_approval status active target <$> filter (λ u, u_username u = name) users.
Proof.
  induction users as [|u users IH]; [done|].
  rewrite fmap_cons, !filter_cons, set_approval_username.
  destruct (decide (u_username u = name)); [|done]. by rewrite fmap_cons, IH.
Qed.

(** What a served decision leaves. *)
Lemma decide_student_served status active title body url student_id users notifications
    users' notifications' :
  decide_student status active title body url student_id users notifications
    = (users', notifications', Served) →
  ∃ target,
    target ∈ users ∧ has_student_id student_id target ∧
    users' = set_approval status active target <$> users ∧
    notifications' = notify (u_id target) title body url "" "" notifications.
Proof.
  unfold decide_student.
  destruct (objects_get (has_student_id student_id) users) as [target|[]] eqn:Hget;
    try done.
  intros [= <- <-]. apply objects_get_Ok in Hget as [Hhas Hin]. by exists target.
Qed.

Lemma login_after_decision authenticate status active target users password :
  NoDup (u_username <$> users) → target ∈ users →
  login_view authenticate (set_approval status active target <$> users)
    (u_username target) password
  = if active then
      match authenticate (set_approval status active target <$> users)
              (u_username target) password with
      | Some user => Welcome user
      | None => InvalidLogin
      end
    else PendingApproval.
Proof.
  intros Hnd Hin. unfold login_view, objects_get.
  rewrite filter_username_set_approval, (filter_unique_key u_username users target Hnd Hin).
  simpl. destruct (set_approval_target status active target) as [-> _]. done.
Qed.
End Accounts.

(** X16.  With unique user names: after a served [reject_student] the
    rejected user gets the 'pending admin approval' answer from [login_view]
    whatever password is given; after a served [approve_student] the answer
    to a login is the one [authenticate] gives.  Neither changes any row of
    the [Student] table the attendance core reads (only [approval_status] and
    the user's [is_active] are written), and each leaves one notification for
    the user.  For an unknown student id both answer 404 and change nothing. *)
Theorem account_decisions_and_login
    (authenticate : list User → string → string → option User)
    (student_id : string) (users : list User) (notifications : list Notification)
    (password : string) :
  NoDup (u_username <$> users) →
  (∀ users' notifications',
     reject_student student_id users notifications = (users', notifications', Served) →
     ∃ target,
       target ∈ users ∧ has_student_id student_id target ∧
       login_view authenticate users' (u_username target) password = PendingApproval ∧
       students_of users' = students_of users ∧
       length notifications' = S (length notifications)) ∧
  (∀ users' notifications',
     approve_student student_id users notifications = (users', notifications', Served) →
     ∃ target,
       target ∈ users ∧ has_student_id student_id target ∧
       login_view authenticate users' (u_username target) password
         = match authenticate users' (u_username target) password with
           | Some user => Welcome user
           | None => InvalidLogin
           end ∧
       students_of users' = students_of users ∧
       length notifications' = S (length notifications)) ∧
  (filter (has_student_id student_id) users = [] →
   reject_student student_id users notifications = (users, notifications, Http404) ∧
   approve_student student_id users notifications = (users, notifications, Http404)).
Proof.
  intros Hnd. split; [|split].
  - intros users' notifications' Hrun.
    apply decide_student_served in Hrun as (target & Hin & Hhas & -> & ->).
    exists target. split; [done|]. split; [done|].
    rewrite (login_after_decision authenticate "rejected" false target users password Hnd Hin).
    split; [done|]. split; [apply students_of_set_approval|].
    unfold notify. rewrite length_app. simpl. lia.
  - intros users' notifications' Hrun.
    apply decide_student_served in Hrun as (target & Hin & Hhas & -> & ->).
    exists target. split; [done|]. split; [done|].
    rewrite (login_after_decision authenticate "approved" true target users password Hnd Hin).
    split; [done|]. split; [apply students_of_set_approval|].
    unfold notify. rewrite length_app. simpl. lia.
  - intros Hnone. unfold reject_student, approve_student, decide_student, objects_get.
    by rewrite Hnone.
Qed.

Lemma toy_users_unique : NoDup (u_username <$> toy_users).
Proof. exact (bool_decide_unpack (NoDup (u_username <$> toy_users)) I). Defined.

Lemma account_decisions_and_login_witness :
  NoDup (u_username <$> toy_users) ∧
  ∃ target,
    target ∈ toy_users ∧ has_student_id "STU0002" target ∧
    login_view (λ _ _ _, None)
      (reject_student "STU0002" toy_users []).1.1 (u_username target) "secret"
      = PendingApproval ∧
    students_of (reject_student "STU0002" toy_users []).1.1 = students_of toy_users ∧
    length (reject_student "STU0002" toy_users []).1.2 = 1%nat.
Proof.
  split; [exact toy_users_unique|].
  exact (proj1 (account_decisions_and_login (λ _ _ _, None) "STU0002" toy_users []
                  "secret" toy_users_unique) _ _ eq_refl).
Defined.

(** ** views.py: delete_student *)

Section Deletion.
Implicit Types (table : list Attendance).

Lemma unique_pairs_filter (P : Attendance → Prop) `{HP : ∀ a, Decision (P a)} table :
  unique_pairs table → unique_pairs (filter P table).
Proof.
  intros Huniq st ev. specialize (Huniq st ev).
  assert (length (filter (for_pair st ev) (filter P table))
          ≤ length (filter (for_pair st ev) table))%nat; [|lia].
  clear Huniq. induction table as [|a table IH]; [done|].
  rewrite (filter_cons P). destruct (decide (P a)).
  - rewrite !filter_cons. destruct (decide (for_pair st ev a)); simpl; lia.
  - rewrite (filter_cons (for_pair st ev) a table).
    destruct (decide (for_pair st ev a)); simpl; lia.
Qed.
End Deletion.

(** X17.  A served [delete_student] removes, with the student, every
    attendance row of the student, every row the student marked for others
    and every row of an event the student coordinates, and keeps all other
    rows in order; no remaining event, user or notification refers to the
    deleted student or user; a table with one row per pair stays so. *)
Theorem delete_student_cascades (student_id : string) (site site' : Site) :
  delete_student student_id site = (site', Served) →
  ∃ user p,
    user ∈ site_users site ∧ u_student user = Some p ∧
    s_student_id (p_student p) = student_id ∧
    (∀ a, a ∈ site_attendance site' ↔
          a ∈ site_attendance site ∧
          a_student a ≠ s_id (p_student p) ∧ a_marked_by a ≠ s_id (p_student p) ∧
          ¬ ∃ e, e ∈ site_events site ∧ er_coordinator e = s_id (p_student p) ∧
                 e_id (er_event e) = a_event a) ∧
    site_attendance site' `sublist_of` site_attendance site ∧
    (unique_pairs (site_attendance site) → unique_pairs (site_attendance site')) ∧
    (∀ e, e ∈ site_events site' ↔
          e ∈ site_events site ∧ er_coordinator e ≠ s_id (p_student p)) ∧
    (∀ u, u ∈ site_users site' ↔ u ∈ site_users site ∧ u_id u ≠ u_id user) ∧
    (∀ n, n ∈ site_notifications site' ↔
          n ∈ site_notifications site ∧ n_user n ≠ u_id user).
Proof.
  unfold delete_student.
  destruct (objects_get (has_student_id student_id) (site_users site)) as [user|[]] eqn:Hget;
    try done.
  apply objects_get_Ok in Hget as [(p & Hp & Hsid) Hin]. rewrite Hp.
  intros [= <-]. exists user, p. simpl.
  split; [done|]. split; [done|]. split; [done|].
  split; [|split; [|split; [|split; [|split]]]].
  - intros a. rewrite list_elem_of_filter. unfold events_of.
    rewrite list_elem_of_fmap. split.
    + intros [(Hst & Hmk & Hev) Ha]. split; [done|]. split; [done|]. split; [done|].
      intros (e & He & Hco & Hid). apply Hev. exists e. split; [done|].
      by apply list_elem_of_filter.
    + intros (Ha & Hst & Hmk & Hev). split; [|done]. split; [done|]. split; [done|].
      intros (e & Hid & He). apply list_elem_of_filter in He as [Hco He].
      apply Hev. by exists e.
  - apply sublist_filter.
  - apply unique_pairs_filter.
  - intros e. rewrite list_elem_of_filter. tauto.
  - intros u. rewrite list_elem_of_filter. tauto.
  - intros n. rewrite list_elem_of_filter. tauto.
Qed.

Lemma delete_student_cascades_witness :
  delete_student "STU0002"
    (mkSite toy_users [mkEventRow toy_event 2 "approved"]
       [new_row 1 1 (auto_defaults bob); new_row 3 1 (manual_defaults alice "late")]
       [])
  = (mkSite [mkUser 11 "alice" true false (Some (mkProfile alice "admin" "approved"));
             mkUser 13 "carol" true false (Some (mkProfile carol "student" "approved"));
             mkUser 14 "dave" false false (Some (mkProfile dave "student" "pending"))]
       [] [] [], Served) ∧
  ∃ user p,
    user ∈ toy_users ∧ u_student user = Some p ∧ s_student_id (p_student p) = "STU0002".
Proof.
  split; [reflexivity|].
  destruct (delete_student_cascades "STU0002"
              (mkSite toy_users [mkEventRow toy_event 2 "approved"]
                 [new_row 1 1 (auto_defaults bob); new_row 3 1 (manual_defaults alice "late")]
                 [])
              _ eq_refl) as (user & p & Hin & Hp & Hsid & _).
  by exists user, p.
Defined.

(** ** views.py and forms.py: register *)

Section Registration.
Implicit Types (users : list User) (notifications : list Notification).

Lemma students_of_app users users' :
  students_of (users ++ users') = students_of users ++ students_of users'.
Proof. unfold students_of. apply omap_app. Qed.

Lemma students_of_student_id users s :
  s ∈ students_of users → filter (has_student_id (s_student_id s)) users ≠ [].
Proof.
  unfold students_of. intros (u & Hu & Hs)%list_elem_of_omap.
  destruct (u_student u) as [p|] eqn:Hp; [|done]. injection Hs as <-.
  intros Hnone. eapply (filter_nil_not_elem_of _ _ u Hnone); [|done]. by exists p.
Qed.

Lemma notify_admins_length form admins notifications :
  length (notify_admins form admins notifications)
    = (length notifications + length admins)%nat.
Proof.
  unfold notify_admins. revert notifications.
  induction admins as [|a admins IH]; intros notifications; simpl; [lia|].
  rewrite IH. unfold notify. rewrite length_app. simpl. lia.
Qed.

Lemma student_id_is_valid_spec student_id users :
  student_id_is_valid student_id users = true ↔
  student_id ≠ EmptyString ∧ (String.length student_id ≤ 20)%nat ∧
  filter (has_student_id student_id) users = [].
Proof.
  unfold student_id_is_valid. rewrite !andb_true_iff, negb_true_iff.
  rewrite bool_decide_eq_false, !bool_decide_eq_true. tauto.
Qed.
End Registration.

(** X18.  [register] keeps student ids unique and non-empty.  A refused form
    changes nothing.  An accepted one adds a user who cannot log in yet
    ([login_view] answers 'pending admin approval' whatever the password) but
    whose student is already an active row of the [Student] table, so that
    the next training takes the faces of the photo into the training set; and
    it leaves one notification per admin. *)
Theorem register_keeps_student_ids `{cv : CV} (other_fields_valid : bool)
    (user_id student_pk : Z) (form : registration) (users users' : list User)
    (notifications notifications' : list Notification) (outcome : register_outcome) :
  unique_student_ids (students_of users) →
  nonempty_student_ids (students_of users) →
  register other_fields_valid user_id student_pk form users notifications
    = (users', notifications', outcome) →
  unique_student_ids (students_of users') ∧
  nonempty_student_ids (students_of users') ∧
  (outcome = FormErrors → users' = users ∧ notifications' = notifications) ∧
  (outcome = AccountCreated →
   students_of users'
     = students_of users ++
       [mkStudent student_pk (r_student_id form) (r_name form) (Some (r_photo form)) true] ∧
   training_set (students_of users')
     = add_student (training_set (students_of users))
         (mkStudent student_pk (r_student_id form) (r_name form) (Some (r_photo form)) true) ∧
   length notifications' = (length notifications + length (admin_users users'))%nat ∧
   (r_username form ∉ u_username <$> users →
    ∀ authenticate password,
      login_view authenticate users' (r_username form) password = PendingApproval)).
Proof.
  intros Huniq Hne. unfold register.
  destruct (other_fields_valid && student_id_is_valid (r_student_id form) users) eqn:Hvalid.
  - intros [= <- <- <-]. apply andb_true_iff in Hvalid as [_ Hsid].
    apply student_id_is_valid_spec in Hsid as (Hnonempty & _ & Hfree).
    assert (Hstudents : students_of (users ++ [registered_user user_id student_pk form])
              = students_of users ++
                [mkStudent student_pk (r_student_id form) (r_name form)
                   (Some (r_photo form)) true]).
    { by rewrite students_of_app. }
    rewrite Hstudents. split; [|split; [|split; [done|]]].
    + unfold unique_student_ids in *. rewrite fmap_app. apply NoDup_app.
      split; [done|]. split; [|by apply NoDup_singleton].
      intros sid Hsid Hnew. simpl in Hnew. apply list_elem_of_singleton in Hnew. subst sid.
      apply list_elem_of_fmap in Hsid as (s & Heq & Hs).
      apply students_of_student_id in Hs. rewrite <- Heq in Hs. done.
    + unfold nonempty_student_ids in *. apply Forall_app. split; [done|].
      by constructor.
    + intros _. split; [done|]. split; [|split].
      * unfold training_set. rewrite filter_app, filter_cons_True by done.
        by rewrite filter_nil, foldl_app.
      * apply notify_admins_length.
      * intros Hfresh authenticate password. unfold login_view, objects_get.
        rewrite filter_app, filter_cons_True by done. rewrite filter_nil.
        assert (filter (λ u, u_username u = r_username form) users = []) as ->; [|done].
        destruct (filter (λ u, u_username u = r_username form) users) as [|u l] eqn:E;
          [done|].
        exfalso. assert (Hu : u ∈ filter (λ u, u_username u = r_username form) users)
          by (rewrite E; by left).
        apply list_elem_of_filter in Hu as [Hname Hu]. apply Hfresh.
        rewrite <- Hname. by apply list_elem_of_fmap_2.
  - intros [= <- <- <-]. split; [done|]. split; [done|]. split; [done|]. done.
Qed.

Lemma register_keeps_student_ids_witness :
  unique_student_ids (students_of toy_users) ∧
  nonempty_student_ids (students_of toy_users) ∧
  (register true 15 5 (mkRegistration "erin" "STU0005" "Erin" "student" "erin.jpg")
     toy_users []).2 = AccountCreated ∧
  unique_student_ids
    (students_of
       (register true 15 5 (mkRegistration "erin" "STU0005" "Erin" "student" "erin.jpg")
          toy_users []).1.1) ∧
  (register true 16 6 (mkRegistration "eve" "STU0001" "Eve" "student" "eve.jpg")
     toy_users []) = (toy_users, [], FormErrors).
Proof.
  split; [exact toy_students_unique|]. split; [exact toy_students_nonempty|].
  split; [reflexivity|]. split; [|reflexivity].
  exact (proj1 (register_keeps_student_ids (cv := toy_cv) true 15 5
                  (mkRegistration "erin" "STU0005" "Erin" "student" "erin.jpg")
                  toy_users _ [] _ _ toy_students_unique toy_students_nonempty eq_refl)).
Defined.

(** ** Students the recognizer cannot know *)

Section Untrained_students.
Context `{cv : CV}.
Implicit Types (students : list Student).

Lemma add_student_nothing acc s :
  s_is_active s = true → without_training_face s → add_student acc s = acc.
Proof.
  intros Hact [Hin|Hphoto]; [congruence|]. unfold add_student.
  destruct (s_photo s) as [image_path|]; [|done].
  destruct Hphoto as [-> | Himg]; [done|].
  destruct (path_exists image_path); [|done].
  destruct (imread image_path) as [image|]; [|done]. by rewrite Himg.
Qed.

Lemma training_set_skip students1 s students2 :
  without_training_face s →
  training_set (students1 ++ s :: students2) = training_set (students1 ++ students2).
Proof.
  intros Hs. unfold training_set. rewrite !filter_app, filter_cons.
  destruct (decide (s_is_active s = true)) as [Hact|]; [|done].
  rewrite !foldl_app. simpl. by rewrite add_student_nothing.
Qed.
End Untrained_students.

(** X19.  A student who is inactive, or has no photo, or whose photo file is
    missing, unreadable or shows no detectable face, does not influence
    training: the training set is the one obtained without the student.  With
    unique student ids, the group-photo view then never recognizes that
    student, whatever the photo. *)
Theorem student_without_training_face_is_never_recognized `{cv : CV} (T : Q)
    (students1 students2 : list Student) (s : Student) (group_photo : option Image) :
  without_training_face s →
  unique_student_ids (students1 ++ s :: students2) →
  training_set (students1 ++ s :: students2) = training_set (students1 ++ students2) ∧
  s ∉ recognized_of T (students1 ++ s :: students2) group_photo.
Proof.
  intros Hs Huniq. pose proof (training_set_skip students1 s students2 Hs) as Hskip.
  split; [done|]. intros Hrec.
  apply recognized_of_accepted in Hrec as (image & rect & label & c & _ & _ & _ & Hacc).
  apply accept_Some in Hacc as (_ & (m & Hids & Hl & _ & _) & _).
  destruct (load_and_train (students1 ++ s :: students2) init) as [rec [|]] eqn:Hlt;
    simpl in Hids.
  - apply load_and_train_true in Hlt as (_ & Hmap & _). rewrite Hmap in Hids.
    injection Hids as <-. rewrite Hskip in Hl.
    destruct (training_set_enrolled (students1 ++ students2) label (s_student_id s) Hl)
      as (s' & Hin & _ & Hsid).
    unfold unique_student_ids in Huniq. rewrite fmap_app, fmap_cons in Huniq.
    apply NoDup_app in Huniq as (_ & Hdisj & Hnd). apply NoDup_cons in Hnd as [Hnotin _].
    apply elem_of_app in Hin as [Hin|Hin].
    + apply (Hdisj (s_student_id s)); [|by left]. rewrite <- Hsid.
      by apply list_elem_of_fmap_2.
    + apply Hnotin. rewrite <- Hsid. by apply list_elem_of_fmap_2.
  - apply load_and_train_false in Hlt as ->. done.
Qed.

Lemma student_without_training_face_is_never_recognized_witness :
  without_training_face (cv := toy_cv) carol ∧
  unique_student_ids ([alice; bob] ++ carol :: [dave]) ∧
  training_set (cv := toy_cv) ([alice; bob] ++ carol :: [dave])
    = training_set (cv := toy_cv) ([alice; bob] ++ [dave]) ∧
  carol ∉ recognized_of (cv := toy_cv) THRESHOLD ([alice; bob] ++ carol :: [dave])
            (@imread toy_cv "group.jpg").
Proof.
  assert (Hs : without_training_face (cv := toy_cv) carol) by (right; exact I).
  split; [exact Hs|]. split; [exact toy_students_unique|].
  exact (student_without_training_face_is_never_recognized (cv := toy_cv) THRESHOLD
           [alice; bob] [dave] carol (@imread toy_cv "group.jpg") Hs toy_students_unique).
Defined.

(** ** views.py: exceptions and composition in the write paths *)

Section Outcomes.
Context `{cv : CV}.

(** The loop of the view ends with an exception as soon as the classifier
    raises for one face. *)
Lemma recognize_each_raises T students image rects acc rec rect e :
  rect ∈ rects → predict (recognizer rec) (face_roi image rect) = Raise e →
  ∃ e', fst (recognize_each T students image rects acc rec) = Raise e'.
Proof.
  intros Hin Hraise.
  destruct (recognize_each T students image rects acc rec) as [[rs|e'] rec'] eqn:Hloop;
    [|by exists e'].
  apply recognize_each_Ok in Hloop as (results & accepted & Hcl & _).
  apply list_elem_of_lookup in Hin as [i Hi].
  destruct (Forall2_lookup_l _ _ _ _ _ Hcl Hi) as (r & _ & Hr). congruence.
Qed.

Lemma mark_manual_app to_pk students admin event admin_notes ids1 ids2 n table :
  mark_manual to_pk students admin event admin_notes (ids1 ++ ids2) n table =
  match mark_manual to_pk students admin event admin_notes ids1 n table with
  | (table1, Ok m) => mark_manual to_pk students admin event admin_notes ids2 m table1
  | (table1, Raise e) => (table1, Raise e)
  end.
Proof.
  revert n table. induction ids1 as [|sid ids1 IH]; intros n table; simpl; [done|].
  destruct (to_pk sid) as [pk|]; [|done].
  destruct (objects_get (active_with_pk pk) students) as [s|[]]; try done.
  destruct (get_or_create (s_id s) (e_id event) (manual_defaults admin admin_notes) table)
    as [[[table' a] created]|]; [|done].
  apply IH.
Qed.

(** The count the loop starts from does not influence what it writes. *)
Lemma mark_manual_shift to_pk students admin event admin_notes ids n k table :
  fst (mark_manual to_pk students admin event admin_notes ids (n + k) table)
    = fst (mark_manual to_pk students admin event admin_notes ids n table) ∧
  ∀ m, snd (mark_manual to_pk students admin event admin_notes ids n table) = Ok m →
       snd (mark_manual to_pk students admin event admin_notes ids (n + k) table)
         = Ok (m + k)%nat.
Proof.
  revert n table. induction ids as [|sid ids IH]; intros n table; simpl.
  - split; [done|]. by intros m [= <-].
  - destruct (to_pk sid) as [pk|]; [|done].
    destruct (objects_get (active_with_pk pk) students) as [s|[]]; try done.
    destruct (get_or_create (s_id s) (e_id event) (manual_defaults admin admin_notes) table)
      as [[[table' a] [|]]|]; [| |done].
    + apply (IH (S n)).
    + apply IH.
Qed.
End Outcomes.

(** X20.  In the group-photo view an exception of the classifier at any one
    detected face discards the whole submission: nothing is written and the
    view ends with 'Error in group attendance'.  With unique student ids and
    at most one row per pair, the submission completes exactly when the photo
    is readable, shows a face and the classifier raises for none. *)
Theorem group_attendance_outcome `{cv : CV} (T : Q) (students : list Student)
    (coordinator : Student) (event : Event) (image : Image) (table : list Attendance) :
  unique_student_ids students →
  unique_pairs table →
  detectMultiScale image ≠ [] →
  ((∃ rect e, rect ∈ detectMultiScale image ∧
      predict (recognizer (fst (load_and_train students init))) (face_roi image rect)
        = Raise e) →
   ∃ e', group_attendance_at T students coordinator event (Some image) table
           = (table, ErrorInGroupAttendance e')) ∧
  ((∃ results, classified (recognizer (fst (load_and_train students init))) image
                 (detectMultiScale image) results) ↔
   ∃ table' recognized marked,
     group_attendance_at T students coordinator event (Some image) table
       = (table', GroupCompleted (length (detectMultiScale image)) recognized marked)).
Proof.
  intros Huniq Hpairs Hfaces. unfold group_attendance_at, group_recognize.
  destruct (detectMultiScale image) as [|rect0 rects0] eqn:Hd; [done|]. rewrite <- Hd.
  split.
  - intros (rect & e & Hin & Hraise).
    destruct (recognize_each_raises T students image (detectMultiScale image) []
                (fst (load_and_train students init)) rect e Hin Hraise) as [e' ->].
    by exists e'.
  - split.
    + intros [results Hcl].
      destruct (matching_policy_total T students
                  (label_ids (fst (load_and_train students init))) results Huniq)
        as [accepted Hp].
      rewrite (recognize_each_policy T students image (detectMultiScale image) results []
                 (fst (load_and_train students init)) Hcl accepted Hp). simpl.
      destruct (mark_recognized_total coordinator event accepted 0 table Hpairs) as [m Hm].
      destruct (mark_recognized coordinator event accepted 0 table) as [t' o].
      simpl in Hm. subst o. by exists t', (length accepted), m.
    + intros (table' & r & n & Hrun).
      destruct (recognize_each T students image (detectMultiScale image) []
                  (fst (load_and_train students init))) as [[rs|e] rec'] eqn:Hloop;
        simpl in Hrun; [|done].
      apply recognize_each_Ok in Hloop as (results & _ & Hcl & _). by exists results.
Qed.

Lemma group_attendance_outcome_witness :
  unique_student_ids toy_students ∧ unique_pairs [] ∧
  detectMultiScale (CV := toy_cv) [(0, 25%Q); (1, 30%Q); (7, 95%Q)] ≠ [] ∧
  ∃ table' recognized marked,
    group_attendance_at (cv := toy_cv) THRESHOLD toy_students bob toy_event
      (Some [(0, 25%Q); (1, 30%Q); (7, 95%Q)]) []
    = (table', GroupCompleted 3 recognized marked).
Proof.
  assert (Hpairs : unique_pairs []) by (intros student event; simpl; lia).
  assert (Hfaces : detectMultiScale (CV := toy_cv) [(0, 25%Q); (1, 30%Q); (7, 95%Q)] ≠ [])
    by (simpl; discriminate).
  split; [exact toy_students_unique|]. split; [exact Hpairs|]. split; [exact Hfaces|].
  apply (proj2 (group_attendance_outcome (cv := toy_cv) THRESHOLD toy_students bob toy_event
                  [(0, 25%Q); (1, 30%Q); (7, 95%Q)] [] toy_students_unique Hpairs Hfaces)).
  exists [(0, 25%Q); (1, 30%Q); (7, 95%Q)]. unfold classified. simpl. repeat constructor.
Defined.

(** X21.  Manual marking composes: when the student ids are submitted in two
    requests, one after the other, and both complete, the table is the one a
    single request with all the ids leaves, and the two reported counts add
    up to the count of the single request. *)
Theorem manual_attendance_in_two_requests (to_pk : string → option Z)
    (students : list Student) (admin : Student) (event : Event)
    (ids1 ids2 : list string) (admin_notes : string)
    (table table1 table2 : list Attendance) (marked1 marked2 : nat) :
  manual_attendance to_pk students admin event ids1 admin_notes table
    = (table1, ManualCompleted marked1) →
  manual_attendance to_pk students admin event ids2 admin_notes table1
    = (table2, ManualCompleted marked2) →
  manual_attendance to_pk students admin event (ids1 ++ ids2) admin_notes table
    = (table2, ManualCompleted (marked1 + marked2)).
Proof.
  unfold manual_attendance. intros H1 H2.
  destruct ids1 as [|sid1 ids1]; [done|]. destruct ids2 as [|sid2 ids2]; [done|].
  change ((sid1 :: ids1) ++ sid2 :: ids2) with (sid1 :: (ids1 ++ sid2 :: ids2)).
  change (sid1 :: (ids1 ++ sid2 :: ids2)) with ((sid1 :: ids1) ++ sid2 :: ids2).
  rewrite mark_manual_app.
  destruct (mark_manual to_pk students admin event admin_notes (sid1 :: ids1) 0 table)
    as [t1 [m1|e1]]; [|done].
  injection H1 as <- <-.
  destruct (mark_manual_shift to_pk students admin event admin_notes (sid2 :: ids2)
              0 m1 t1) as [Htab Hshift].
  change (0 + m1)%nat with m1 in Htab, Hshift.
  destruct (mark_manual to_pk students admin event admin_notes (sid2 :: ids2) 0 t1)
    as [t2 [m2|e2]]; [|done].
  injection H2 as <- <-. specialize (Hshift m2 eq_refl).
  destruct (mark_manual to_pk students admin event admin_notes (sid2 :: ids2) m1 t1)
    as [t2' r2']. simpl in Htab, Hshift. subst t2' r2'. by rewrite Nat.add_comm.
Qed.

Lemma manual_attendance_in_two_requests_witness :
  manual_attendance toy_to_pk toy_students alice toy_event ["3"] "late" []
    = ([new_row 3 1 (manual_defaults alice "late")], ManualCompleted 1) ∧
  manual_attendance toy_to_pk toy_students alice toy_event ["1"; "3"] "late"
      [new_row 3 1 (manual_defaults alice "late")]
    = ([new_row 3 1 (manual_defaults alice "late");
        new_row 1 1 (manual_defaults alice "late")], ManualCompleted 1) ∧
  manual_attendance toy_to_pk toy_students alice toy_event (["3"] ++ ["1"; "3"]) "late" []
    = ([new_row 3 1 (manual_defaults alice "late");
        new_row 1 1 (manual_defaults alice "late")], ManualCompleted (1 + 1)).
Proof.
  split; [reflexivity|]. split; [reflexivity|].
  exact (manual_attendance_in_two_requests toy_to_pk toy_students alice toy_event
           ["3"] ["1"; "3"] "late" [] _ _ 1 1 eq_refl eq_refl).
Defined.

(** ** views.py: delete_event *)


